(** * Flounder swapchain: a shallow embedding of [Swapchain.cpp]

    The development follows
    [Flounder.Core/src/renderer/swapchain/Swapchain.cpp].  Pure helpers
    ([ChooseSwapSurfaceFormat], [ChooseSwapPresentMode], the image-count
    rule of [Create]) are plain functions.  Everything that talks to Vulkan
    or GLFW runs in a small monad over a [World]: the world keeps the
    chronological trace of platform calls, and a [Platform] record says how
    the driver answers each of them. *)

From stdpp Require Import base list numbers.

Local Open Scope Z_scope.

(** ** Scalars, handles and the Vulkan constants the file uses *)

(** [uint32_t] values are integers in [0, 2^32); arithmetic wraps. *)
Definition UINT32_MAX : Z := 4294967295.
Definition wrap32 (z : Z) : Z := z mod 2 ^ 32.
Definition is_uint32 (z : Z) : Prop := 0 ≤ z ≤ UINT32_MAX.

(** [static_cast<uint32_t>] of a C [int]. *)
Definition static_cast_uint32 (i : Z) : Z := wrap32 i.

(** Vulkan handles are opaque; [VK_NULL_HANDLE] is zero. *)
Definition Handle := N.
Definition VK_NULL_HANDLE : Handle := 0%N.
Definition VkDevice := Handle.
Definition VkPhysicalDevice := Handle.
Definition VkSurfaceKHR := Handle.
Definition VkSwapchainKHR := Handle.
Definition VkImage := Handle.
Definition VkImageView := Handle.
Definition VkFramebuffer := Handle.
Definition VkRenderPass := Handle.
Definition GLFWwindow := Handle.

(** C enumerations are integers, with the values of [vulkan_core.h]. *)
Definition VkResult := Z.
Definition VK_SUCCESS : VkResult := 0.
Definition VK_INCOMPLETE : VkResult := 5.
Definition VK_ERROR_OUT_OF_HOST_MEMORY : VkResult := -1.
Definition VK_ERROR_DEVICE_LOST : VkResult := -4.

Definition VkFormat := Z.
Definition VK_FORMAT_UNDEFINED : VkFormat := 0.
Definition VK_FORMAT_R8G8B8A8_UNORM : VkFormat := 37.
Definition VK_FORMAT_B8G8R8A8_UNORM : VkFormat := 44.

Definition VkColorSpaceKHR := Z.
Definition VK_COLOR_SPACE_SRGB_NONLINEAR_KHR : VkColorSpaceKHR := 0.

Definition VkPresentModeKHR := Z.
Definition VK_PRESENT_MODE_IMMEDIATE_KHR : VkPresentModeKHR := 0.
Definition VK_PRESENT_MODE_MAILBOX_KHR : VkPresentModeKHR := 1.
Definition VK_PRESENT_MODE_FIFO_KHR : VkPresentModeKHR := 2.
Definition VK_PRESENT_MODE_FIFO_RELAXED_KHR : VkPresentModeKHR := 3.

Definition VK_IMAGE_USAGE_COLOR_ATTACHMENT_BIT : Z := 16.
Definition VK_SHARING_MODE_EXCLUSIVE : Z := 0.
Definition VK_COMPOSITE_ALPHA_OPAQUE_BIT_KHR : Z := 1.
Definition VK_TRUE : Z := 1.
Definition VK_IMAGE_VIEW_TYPE_2D : Z := 1.
Definition VK_COMPONENT_SWIZZLE_IDENTITY : Z := 0.
Definition VK_IMAGE_ASPECT_COLOR_BIT : Z := 1.

(** ** Structures *)

Record VkExtent2D := {
  width : Z;
  height : Z
}.

Record VkSurfaceFormatKHR := {
  format : VkFormat;
  colorSpace : VkColorSpaceKHR
}.

Record VkSurfaceCapabilitiesKHR := {
  minImageCount : Z;
  maxImageCount : Z;
  currentExtent : VkExtent2D;
  minImageExtent : VkExtent2D;
  maxImageExtent : VkExtent2D;
  currentTransform : Z
}.

Record SwapChainSupportDetails := {
  capabilities : VkSurfaceCapabilitiesKHR;
  formats : list VkSurfaceFormatKHR;
  presentModes : list VkPresentModeKHR
}.

Record VkSwapchainCreateInfoKHR := {
  sci_surface : VkSurfaceKHR;
  sci_minImageCount : Z;
  sci_imageFormat : VkFormat;
  sci_imageColorSpace : VkColorSpaceKHR;
  sci_imageExtent : VkExtent2D;
  sci_imageArrayLayers : Z;
  sci_imageUsage : Z;
  sci_imageSharingMode : Z;
  sci_preTransform : Z;
  sci_compositeAlpha : Z;
  sci_presentMode : VkPresentModeKHR;
  sci_clipped : Z;
  sci_oldSwapchain : VkSwapchainKHR
}.

Record VkImageViewCreateInfo := {
  ivi_image : VkImage;
  ivi_viewType : Z;
  ivi_format : VkFormat;
  ivi_components : Z * Z * Z * Z;
  ivi_aspectMask : Z;
  ivi_baseMipLevel : Z;
  ivi_levelCount : Z;
  ivi_baseArrayLayer : Z;
  ivi_layerCount : Z
}.

Record VkFramebufferCreateInfo := {
  fbi_renderPass : VkRenderPass;
  fbi_attachments : list VkImageView;
  fbi_width : Z;
  fbi_height : Z;
  fbi_layers : Z
}.

(** The object itself: the data members of [class Swapchain]. *)
Record Swapchain := {
  m_logicalDevice : VkDevice;
  m_swapChain : VkSwapchainKHR;
  m_swapChainImages : list VkImage;
  m_swapChainImageViews : list VkImageView;
  m_swapChainFramebuffers : list VkFramebuffer;
  m_swapChainImageFormat : VkFormat;
  m_swapChainExtent : VkExtent2D
}.

#[global] Instance VkExtent2D_eq_dec : EqDecision VkExtent2D.
Proof. solve_decision. Defined.
#[global] Instance VkSurfaceFormatKHR_eq_dec : EqDecision VkSurfaceFormatKHR.
Proof. solve_decision. Defined.
#[global] Instance VkSwapchainCreateInfoKHR_eq_dec : EqDecision VkSwapchainCreateInfoKHR.
Proof. solve_decision. Defined.
#[global] Instance VkImageViewCreateInfo_eq_dec : EqDecision VkImageViewCreateInfo.
Proof. solve_decision. Defined.
#[global] Instance VkFramebufferCreateInfo_eq_dec : EqDecision VkFramebufferCreateInfo.
Proof. solve_decision. Defined.

(** Field assignments on [this]. *)
Definition set_logicalDevice (d : VkDevice) (s : Swapchain) : Swapchain :=
  {| m_logicalDevice := d; m_swapChain := m_swapChain s;
     m_swapChainImages := m_swapChainImages s;
     m_swapChainImageViews := m_swapChainImageViews s;
     m_swapChainFramebuffers := m_swapChainFramebuffers s;
     m_swapChainImageFormat := m_swapChainImageFormat s;
     m_swapChainExtent := m_swapChainExtent s |}.

Definition set_swapChain (c : VkSwapchainKHR) (s : Swapchain) : Swapchain :=
  {| m_logicalDevice := m_logicalDevice s; m_swapChain := c;
     m_swapChainImages := m_swapChainImages s;
     m_swapChainImageViews := m_swapChainImageViews s;
     m_swapChainFramebuffers := m_swapChainFramebuffers s;
     m_swapChainImageFormat := m_swapChainImageFormat s;
     m_swapChainExtent := m_swapChainExtent s |}.

Definition set_images (l : list VkImage) (s : Swapchain) : Swapchain :=
  {| m_logicalDevice := m_logicalDevice s; m_swapChain := m_swapChain s;
     m_swapChainImages := l;
     m_swapChainImageViews := m_swapChainImageViews s;
     m_swapChainFramebuffers := m_swapChainFramebuffers s;
     m_swapChainImageFormat := m_swapChainImageFormat s;
     m_swapChainExtent := m_swapChainExtent s |}.

Definition set_imageViews (l : list VkImageView) (s : Swapchain) : Swapchain :=
  {| m_logicalDevice := m_logicalDevice s; m_swapChain := m_swapChain s;
     m_swapChainImages := m_swapChainImages s;
     m_swapChainImageViews := l;
     m_swapChainFramebuffers := m_swapChainFramebuffers s;
     m_swapChainImageFormat := m_swapChainImageFormat s;
     m_swapChainExtent := m_swapChainExtent s |}.

Definition set_framebuffers (l : list VkFramebuffer) (s : Swapchain) : Swapchain :=
  {| m_logicalDevice := m_logicalDevice s; m_swapChain := m_swapChain s;
     m_swapChainImages := m_swapChainImages s;
     m_swapChainImageViews := m_swapChainImageViews s;
     m_swapChainFramebuffers := l;
     m_swapChainImageFormat := m_swapChainImageFormat s;
     m_swapChainExtent := m_swapChainExtent s |}.

Definition set_imageFormat (f : VkFormat) (s : Swapchain) : Swapchain :=
  {| m_logicalDevice := m_logicalDevice s; m_swapChain := m_swapChain s;
     m_swapChainImages := m_swapChainImages s;
     m_swapChainImageViews := m_swapChainImageViews s;
     m_swapChainFramebuffers := m_swapChainFramebuffers s;
     m_swapChainImageFormat := f;
     m_swapChainExtent := m_swapChainExtent s |}.

Definition set_extent (e : VkExtent2D) (s : Swapchain) : Swapchain :=
  {| m_logicalDevice := m_logicalDevice s; m_swapChain := m_swapChain s;
     m_swapChainImages := m_swapChainImages s;
     m_swapChainImageViews := m_swapChainImageViews s;
     m_swapChainFramebuffers := m_swapChainFramebuffers s;
     m_swapChainImageFormat := m_swapChainImageFormat s;
     m_swapChainExtent := e |}.

(** [Swapchain::Swapchain()]: null handles, empty vectors, zeroed format
    and extent. *)
Definition Swapchain_new : Swapchain :=
  {| m_logicalDevice := VK_NULL_HANDLE; m_swapChain := VK_NULL_HANDLE;
     m_swapChainImages := []; m_swapChainImageViews := [];
     m_swapChainFramebuffers := [];
     m_swapChainImageFormat := 0;
     m_swapChainExtent := {| width := 0; height := 0 |} |}.

(** ** Pure selection helpers *)

(** The pair returned for the lone [VK_FORMAT_UNDEFINED] entry. *)
Definition preferredFormat : VkSurfaceFormatKHR :=
  {| format := VK_FORMAT_B8G8R8A8_UNORM;
     colorSpace := VK_COLOR_SPACE_SRGB_NONLINEAR_KHR |}.

Definition is_preferred (f : VkSurfaceFormatKHR) : bool :=
  bool_decide (format f = VK_FORMAT_B8G8R8A8_UNORM) &&
  bool_decide (colorSpace f = VK_COLOR_SPACE_SRGB_NONLINEAR_KHR).

(** The range-for of [ChooseSwapSurfaceFormat]: [Some] is the early
    [return availableFormat], [None] is falling out of the loop. *)
Fixpoint ChooseSwapSurfaceFormat_scan (availableFormats : list VkSurfaceFormatKHR)
  : option VkSurfaceFormatKHR :=
  match availableFormats with
  | [] => None
  | availableFormat :: rest =>
      if is_preferred availableFormat then Some availableFormat
      else ChooseSwapSurfaceFormat_scan rest
  end.

(** [Swapchain::ChooseSwapSurfaceFormat].  [availableFormats[0]] is the list
    lookup [!! 0]; the result [None] stands for the out-of-bounds read of
    [operator[]] on an empty vector.  The [&&] of the first test
    short-circuits, so element 0 is read there only when the size is 1. *)
Definition ChooseSwapSurfaceFormat (availableFormats : list VkSurfaceFormatKHR)
  : option VkSurfaceFormatKHR :=
  if bool_decide (length availableFormats = 1%nat) &&
     bool_decide (format <$> availableFormats !! 0%nat = Some VK_FORMAT_UNDEFINED)
  then Some preferredFormat
  else match ChooseSwapSurfaceFormat_scan availableFormats with
       | Some availableFormat => Some availableFormat
       | None => availableFormats !! 0%nat
       end.

(** The reference definition as the specification words it: a sequence
    that contains exactly one entry whose format is undefined gives the
    preferred pair; otherwise the first entry equal to the preferred pair;
    otherwise the first entry. *)
Definition exactly_one_undefined (fs : list VkSurfaceFormatKHR) : bool :=
  bool_decide
    (length (filter (λ e, format e = VK_FORMAT_UNDEFINED) fs) = 1%nat).

Definition SelectSurfaceFormat_stated (fs : list VkSurfaceFormatKHR)
  : VkSurfaceFormatKHR :=
  if exactly_one_undefined fs then preferredFormat
  else match List.find (λ e, bool_decide (e = preferredFormat)) fs with
       | Some e => e
       | None => List.hd preferredFormat fs
       end.

(** The reference definition with its first case amended: a sequence that
    consists of exactly one entry, that entry having the undefined format,
    gives the preferred pair; the other two cases are as above. *)
Definition sole_undefined (fs : list VkSurfaceFormatKHR) : bool :=
  match fs with
  | [e] => bool_decide (format e = VK_FORMAT_UNDEFINED)
  | _ => false
  end.

Definition SelectSurfaceFormat_reference (fs : list VkSurfaceFormatKHR)
  : VkSurfaceFormatKHR :=
  if sole_undefined fs then preferredFormat
  else match List.find (λ e, bool_decide (e = preferredFormat)) fs with
       | Some e => e
       | None => List.hd preferredFormat fs
       end.

(** The range-for of [ChooseSwapPresentMode], with [bestMode] as the loop
    variable that survives iterations. *)
Fixpoint ChooseSwapPresentMode_scan (availablePresentModes : list VkPresentModeKHR)
  (bestMode : VkPresentModeKHR) : VkPresentModeKHR :=
  match availablePresentModes with
  | [] => bestMode
  | availablePresentMode :: rest =>
      if bool_decide (availablePresentMode = VK_PRESENT_MODE_MAILBOX_KHR)
      then availablePresentMode
      else if bool_decide (availablePresentMode = VK_PRESENT_MODE_IMMEDIATE_KHR)
      then ChooseSwapPresentMode_scan rest availablePresentMode
      else ChooseSwapPresentMode_scan rest bestMode
  end.

(** [Swapchain::ChooseSwapPresentMode]. *)
Definition ChooseSwapPresentMode (availablePresentModes : list VkPresentModeKHR)
  : VkPresentModeKHR :=
  ChooseSwapPresentMode_scan availablePresentModes VK_PRESENT_MODE_FIFO_KHR.

(** Lines 41-46 of [Create]: the image count asked of the platform.  The
    sum is a [uint32_t] sum. *)
Definition Create_imageCount (caps : VkSurfaceCapabilitiesKHR) : Z :=
  let imageCount := wrap32 (minImageCount caps + 1) in
  if bool_decide (maxImageCount caps > 0) &&
     bool_decide (imageCount > maxImageCount caps)
  then maxImageCount caps
  else imageCount.

(** The two lines of [ChooseSwapExtent] that clamp one axis:
    [std::max(lo, std::min(hi, static_cast<uint32_t>(v)))]. *)
Definition ChooseSwapExtent_axis (lo hi : Z) (v : Z) : Z :=
  Z.max lo (Z.min hi (static_cast_uint32 v)).

(** Clamping into an interval as the specification words it: values below
    the interval go to its lower end, values above to its upper end. *)
Definition clamp_reference (lo hi v : Z) : Z :=
  if bool_decide (v < lo) then lo
  else if bool_decide (hi < v) then hi
  else v.

(** ** The platform and the world *)

(** One entry of the trace per call into Vulkan or GLFW, with the arguments
    that matter and what the platform answered.  For a two-call query,
    [request] is [None] for the count probe (null data pointer) and
    [Some (count, slots)] for the filling call: the count passed in and the
    number of slots of the buffer behind the data pointer. *)
Inductive Event :=
| Call_vkGetPhysicalDeviceSurfaceCapabilitiesKHR
    (device : VkPhysicalDevice) (surface : VkSurfaceKHR) (result : VkResult)
| Call_vkGetPhysicalDeviceSurfaceFormatsKHR
    (device : VkPhysicalDevice) (surface : VkSurfaceKHR)
    (request : option (Z * nat)) (result : VkResult)
| Call_vkGetPhysicalDeviceSurfacePresentModesKHR
    (device : VkPhysicalDevice) (surface : VkSurfaceKHR)
    (request : option (Z * nat)) (result : VkResult)
| Call_glfwGetWindowSize (window : GLFWwindow)
| Call_vkCreateSwapchainKHR
    (device : VkDevice) (createInfo : VkSwapchainCreateInfoKHR)
    (result : VkResult) (swapchain : VkSwapchainKHR)
| Call_vkGetSwapchainImagesKHR
    (device : VkDevice) (swapchain : VkSwapchainKHR)
    (request : option (Z * nat)) (result : VkResult)
| Call_vkCreateImageView
    (device : VkDevice) (createInfo : VkImageViewCreateInfo)
    (result : VkResult) (view : VkImageView)
| Call_vkCreateFramebuffer
    (device : VkDevice) (createInfo : VkFramebufferCreateInfo)
    (result : VkResult) (framebuffer : VkFramebuffer)
| Call_vkDeviceWaitIdle (device : VkDevice) (result : VkResult)
| Call_vkDestroyImageView (device : VkDevice) (view : VkImageView)
| Call_vkDestroySwapchainKHR (device : VkDevice) (swapchain : VkSwapchainKHR)
| Call_vkDestroyFramebuffer (device : VkDevice) (framebuffer : VkFramebuffer).

#[global] Instance Event_eq_dec : EqDecision Event.
Proof. solve_decision. Defined.

(** The [VkResult] a call handed back; [None] for the [void] functions. *)
Definition event_result (e : Event) : option VkResult :=
  match e with
  | Call_vkGetPhysicalDeviceSurfaceCapabilitiesKHR _ _ r
  | Call_vkGetPhysicalDeviceSurfaceFormatsKHR _ _ _ r
  | Call_vkGetPhysicalDeviceSurfacePresentModesKHR _ _ _ r
  | Call_vkCreateSwapchainKHR _ _ r _
  | Call_vkGetSwapchainImagesKHR _ _ _ r
  | Call_vkCreateImageView _ _ r _
  | Call_vkCreateFramebuffer _ _ r _
  | Call_vkDeviceWaitIdle _ r => Some r
  | Call_glfwGetWindowSize _
  | Call_vkDestroyImageView _ _
  | Call_vkDestroySwapchainKHR _ _
  | Call_vkDestroyFramebuffer _ _ => None
  end.

Definition is_create (e : Event) : bool :=
  match e with
  | Call_vkCreateSwapchainKHR _ _ _ _
  | Call_vkCreateImageView _ _ _ _
  | Call_vkCreateFramebuffer _ _ _ _ => true
  | _ => false
  end.

Definition is_wait_idle (e : Event) : bool :=
  match e with Call_vkDeviceWaitIdle _ _ => true | _ => false end.

Definition is_destroy_framebuffer (e : Event) : bool :=
  match e with Call_vkDestroyFramebuffer _ _ => true | _ => false end.

Definition is_destroy_view_or_chain (e : Event) : bool :=
  match e with
  | Call_vkDestroyImageView _ _ | Call_vkDestroySwapchainKHR _ _ => true
  | _ => false
  end.

Definition is_destroy (e : Event) : bool :=
  is_destroy_framebuffer e || is_destroy_view_or_chain e.

(** What the platform owns: the calls made so far, the next unused handle,
    and the images of every chain it has created (newest first). *)
Record World := {
  w_trace : list Event;
  w_next : Handle;
  w_chains : list (VkSwapchainKHR * list VkImage)
}.

Definition world0 : World :=
  {| w_trace := []; w_next := 1%N; w_chains := [] |}.

(** Time is the number of calls made so far. *)
Definition now (w : World) : nat := length (w_trace w).

Definition emit (e : Event) (w : World) : World :=
  {| w_trace := w_trace w ++ [e]; w_next := w_next w; w_chains := w_chains w |}.

Fixpoint chain_images_in (chains : list (VkSwapchainKHR * list VkImage))
  (c : VkSwapchainKHR) : list VkImage :=
  match chains with
  | [] => []
  | (c', images) :: rest =>
      if bool_decide (c' = c) then images else chain_images_in rest c
  end.

Definition chain_images (w : World) (c : VkSwapchainKHR) : list VkImage :=
  chain_images_in (w_chains w) c.

Definition fresh_handles (first : Handle) (n : nat) : list Handle :=
  (λ k, (first + N.of_nat k)%N) <$> seq 0 n.

(** How the driver, the window system and the [Display] singleton answer.
    Every answer may depend on the time of the call.  [p_imageCount t n] is
    the number of images the platform allocates for a chain created at time
    [t] with [minImageCount = n].  The result code of a call and the data
    it writes are answered independently: a query writes its outputs
    whatever code it returns.  The lists the platform reports are taken to
    have fewer than 2^32 entries, so their lengths are the [uint32_t]
    counts of the source.  [p_nullData t] says whether [data()] of an empty
    [std::vector] is the null pointer at time [t]: the C++ standard leaves
    that open, and the usual libraries return null exactly when the vector
    never allocated storage.  Vulkan leaves the contents of the output
    parameters undefined after an error return: [p_errorCount t c] is what
    an image query that fails at time [t] leaves in a count that held [c],
    and [p_errorImage t i image] what it leaves in slot [i] of the buffer; a
    driver that returns before writing leaves both as they were. *)
Record Platform := {
  p_result : nat → VkResult;
  p_capabilities : nat → VkSurfaceCapabilitiesKHR;
  p_formats : nat → list VkSurfaceFormatKHR;
  p_presentModes : nat → list VkPresentModeKHR;
  p_imageCount : nat → Z → nat;
  p_windowSize : nat → Z * Z;
  p_display : nat → VkDevice;
  p_nullData : nat → bool;
  p_errorCount : nat → Z → Z;
  p_errorImage : nat → nat → VkImage → VkImage
}.

(** ** The monad of the member functions *)

(** A run ends normally ([Done]), is terminated by the error check
    ([Fatal], with the offending code), or performs an out-of-bounds read
    ([Undefined]). *)
Inductive Outcome (A : Type) :=
| Done (a : A) (w : World)
| Fatal (r : VkResult) (w : World)
| Undefined (w : World).
Arguments Done {A} a w.
Arguments Fatal {A} r w.
Arguments Undefined {A} w.

Definition M (A : Type) : Type := World → Outcome A.

#[global] Instance M_ret : MRet M := λ A a w, Done a w.
#[global] Instance M_bind : MBind M := λ A B f m w,
  match m w with
  | Done a w' => f a w'
  | Fatal r w' => Fatal r w'
  | Undefined w' => Undefined w'
  end.

(** Reading [v[i]] where the result says whether the index was in range. *)
Definition checked {A} (o : option A) : M A := λ w,
  match o with Some a => Done a w | None => Undefined w end.

(** Modelled from the spec: [GlfwVulkan::ErrorCheck] is declared outside the
    file; the specification says a non-success code terminates the
    operation. *)
Definition ErrorCheck (result : VkResult) : M unit := λ w,
  if bool_decide (result = VK_SUCCESS) then Done () w else Fatal result w.

(** [for (i = 0; i < n; i++) body], with the object as the loop state. *)
Fixpoint for_each {S : Type} (body : nat → S → M S) (indices : list nat) (s : S)
  : M S :=
  match indices with
  | [] => mret s
  | i :: rest => s' ← body i s; for_each body rest s'
  end.

(** The count-then-fill protocol of the Vulkan enumeration calls: with a
    null data pointer the call reports how many items there are; with a
    buffer of [count] slots it overwrites the first [min count available]
    of them and reports that number. *)
Definition two_call {A} (available : list A) (request : option (Z * list A))
  : Z * list A :=
  match request with
  | None => (Z.of_nat (length available), [])
  | Some (count, buffer) =>
      let k := Nat.min (Z.to_nat count) (length available) in
      (Z.of_nat k, take k available ++ drop k buffer)
  end.

(** Vulkan's error codes are the negative ones; [VK_SUCCESS] and the status
    codes such as [VK_INCOMPLETE] are not. *)
Definition is_error (r : VkResult) : bool := bool_decide (r < 0).

(** [std::vector::data()]: the buffer of a non-empty vector; for an empty
    one, the null pointer ([None]) or a buffer without slots. *)
Definition data_pointer {A} (null : bool) (v : list A) : option (list A) :=
  match v with
  | [] => if null then None else Some []
  | _ => Some v
  end.

Definition request_shape {A} (request : option (Z * list A)) : option (Z * nat) :=
  match request with
  | Some (count, buffer) => Some (count, length buffer)
  | None => None
  end.

Section Model.

Variable pf : Platform.

(** *** Platform calls *)

Definition vkGetPhysicalDeviceSurfaceCapabilitiesKHR
  (device : VkPhysicalDevice) (surface : VkSurfaceKHR)
  : M (VkResult * VkSurfaceCapabilitiesKHR) := λ w,
  let r := p_result pf (now w) in
  Done (r, p_capabilities pf (now w))
       (emit (Call_vkGetPhysicalDeviceSurfaceCapabilitiesKHR device surface r) w).

Definition vkGetPhysicalDeviceSurfaceFormatsKHR
  (device : VkPhysicalDevice) (surface : VkSurfaceKHR)
  (request : option (Z * list VkSurfaceFormatKHR))
  : M (VkResult * Z * list VkSurfaceFormatKHR) := λ w,
  let r := p_result pf (now w) in
  let '(count, data) := two_call (p_formats pf (now w)) request in
  Done (r, count, data)
       (emit (Call_vkGetPhysicalDeviceSurfaceFormatsKHR device surface (request_shape request) r) w).

Definition vkGetPhysicalDeviceSurfacePresentModesKHR
  (device : VkPhysicalDevice) (surface : VkSurfaceKHR)
  (request : option (Z * list VkPresentModeKHR))
  : M (VkResult * Z * list VkPresentModeKHR) := λ w,
  let r := p_result pf (now w) in
  let '(count, data) := two_call (p_presentModes pf (now w)) request in
  Done (r, count, data)
       (emit (Call_vkGetPhysicalDeviceSurfacePresentModesKHR device surface (request_shape request) r) w).

Definition glfwGetWindowSize (window : GLFWwindow) : M (Z * Z) := λ w,
  Done (p_windowSize pf (now w)) (emit (Call_glfwGetWindowSize window) w).

(** A successful creation takes the next handle for the chain and the
    following ones for its images. *)
Definition vkCreateSwapchainKHR (device : VkDevice)
  (createInfo : VkSwapchainCreateInfoKHR) : M (VkResult * VkSwapchainKHR) := λ w,
  let r := p_result pf (now w) in
  if bool_decide (r = VK_SUCCESS) then
    let chain := w_next w in
    let n := p_imageCount pf (now w) (sci_minImageCount createInfo) in
    Done (r, chain)
         {| w_trace := w_trace w ++ [Call_vkCreateSwapchainKHR device createInfo r chain];
            w_next := (N.succ chain + N.of_nat n)%N;
            w_chains := (chain, fresh_handles (N.succ chain) n) :: w_chains w |}
  else
    Done (r, VK_NULL_HANDLE)
         (emit (Call_vkCreateSwapchainKHR device createInfo r VK_NULL_HANDLE) w).

(** [pSwapchainImageCount] is an in/out parameter whose value the caller
    has set, and [pSwapchainImages] is [None] for the null pointer.  A call
    that returns an error code leaves in the count and in the slots of the
    buffer what the platform says; any other call follows the
    count-then-fill protocol on the images of the chain. *)
Definition vkGetSwapchainImagesKHR (device : VkDevice) (swapchain : VkSwapchainKHR)
  (pSwapchainImageCount : Z) (pSwapchainImages : option (list VkImage))
  : M (VkResult * Z * list VkImage) := λ w,
  let r := p_result pf (now w) in
  let request :=
    match pSwapchainImages with
    | Some buffer => Some (pSwapchainImageCount, buffer)
    | None => None
    end in
  let '(count, data) :=
    if is_error r
    then (wrap32 (p_errorCount pf (now w) pSwapchainImageCount),
          imap (p_errorImage pf (now w)) (default [] pSwapchainImages))
    else two_call (chain_images w swapchain) request in
  Done (r, count, data)
       (emit (Call_vkGetSwapchainImagesKHR device swapchain (request_shape request) r) w).

(** [v.data()] at the time of the call. *)
Definition vector_data {A} (v : list A) : M (option (list A)) := λ w,
  Done (data_pointer (p_nullData pf (now w)) v) w.

Definition vkCreateImageView (device : VkDevice)
  (createInfo : VkImageViewCreateInfo) : M (VkResult * VkImageView) := λ w,
  let r := p_result pf (now w) in
  if bool_decide (r = VK_SUCCESS) then
    Done (r, w_next w)
         {| w_trace := w_trace w ++ [Call_vkCreateImageView device createInfo r (w_next w)];
            w_next := N.succ (w_next w);
            w_chains := w_chains w |}
  else
    Done (r, VK_NULL_HANDLE)
         (emit (Call_vkCreateImageView device createInfo r VK_NULL_HANDLE) w).

Definition vkCreateFramebuffer (device : VkDevice)
  (createInfo : VkFramebufferCreateInfo) : M (VkResult * VkFramebuffer) := λ w,
  let r := p_result pf (now w) in
  if bool_decide (r = VK_SUCCESS) then
    Done (r, w_next w)
         {| w_trace := w_trace w ++ [Call_vkCreateFramebuffer device createInfo r (w_next w)];
            w_next := N.succ (w_next w);
            w_chains := w_chains w |}
  else
    Done (r, VK_NULL_HANDLE)
         (emit (Call_vkCreateFramebuffer device createInfo r VK_NULL_HANDLE) w).

Definition vkDeviceWaitIdle (device : VkDevice) : M VkResult := λ w,
  let r := p_result pf (now w) in
  Done r (emit (Call_vkDeviceWaitIdle device r) w).

Definition vkDestroyImageView (device : VkDevice) (view : VkImageView) : M unit :=
  λ w, Done () (emit (Call_vkDestroyImageView device view) w).

Definition vkDestroySwapchainKHR (device : VkDevice) (swapchain : VkSwapchainKHR)
  : M unit :=
  λ w, Done () (emit (Call_vkDestroySwapchainKHR device swapchain) w).

Definition vkDestroyFramebuffer (device : VkDevice) (framebuffer : VkFramebuffer)
  : M unit :=
  λ w, Done () (emit (Call_vkDestroyFramebuffer device framebuffer) w).

(** [Display::Get()->GetVkDevice()]: the device the singleton holds at the
    time of the call. *)
Definition Display_GetVkDevice : M VkDevice := λ w, Done (p_display pf (now w)) w.

(** *** Member functions *)

(** [Swapchain::QuerySwapChainSupport].  No result code is looked at.  A
    vector that is never resized stays empty. *)
Definition QuerySwapChainSupport (device : VkPhysicalDevice) (surface : VkSurfaceKHR)
  : M SwapChainSupportDetails :=
  '(_, details_capabilities) ← vkGetPhysicalDeviceSurfaceCapabilitiesKHR device surface;
  '(_, formatCount, _) ← vkGetPhysicalDeviceSurfaceFormatsKHR device surface None;
  details_formats ←
    (if bool_decide (formatCount ≠ 0) then
       let buffer := resize (Z.to_nat formatCount) {| format := 0; colorSpace := 0 |} [] in
       '(_, _, data) ← vkGetPhysicalDeviceSurfaceFormatsKHR device surface
                          (Some (formatCount, buffer));
       mret data
     else mret []);
  '(_, presentModeCount, _) ← vkGetPhysicalDeviceSurfacePresentModesKHR device surface None;
  details_presentModes ←
    (if bool_decide (presentModeCount ≠ 0) then
       let buffer := resize (Z.to_nat presentModeCount) 0 [] in
       '(_, _, data) ← vkGetPhysicalDeviceSurfacePresentModesKHR device surface
                          (Some (presentModeCount, buffer));
       mret data
     else mret []);
  mret {| capabilities := details_capabilities;
          formats := details_formats;
          presentModes := details_presentModes |}.

(** [Swapchain::ChooseSwapExtent].  The window is asked for its size only
    when the current extent carries the sentinel width. *)
Definition ChooseSwapExtent (caps : VkSurfaceCapabilitiesKHR) (window : GLFWwindow)
  : M VkExtent2D :=
  if bool_decide (width (currentExtent caps) ≠ UINT32_MAX) then
    mret (currentExtent caps)
  else
    '(w, h) ← glfwGetWindowSize window;
    mret {| width := ChooseSwapExtent_axis (width (minImageExtent caps))
                                           (width (maxImageExtent caps)) w;
            height := ChooseSwapExtent_axis (height (minImageExtent caps))
                                            (height (maxImageExtent caps)) h |}.

Definition imageViewCreateInfo (image : VkImage) (fmt : VkFormat)
  : VkImageViewCreateInfo :=
  {| ivi_image := image;
     ivi_viewType := VK_IMAGE_VIEW_TYPE_2D;
     ivi_format := fmt;
     ivi_components := (VK_COMPONENT_SWIZZLE_IDENTITY, VK_COMPONENT_SWIZZLE_IDENTITY,
                        VK_COMPONENT_SWIZZLE_IDENTITY, VK_COMPONENT_SWIZZLE_IDENTITY);
     ivi_aspectMask := VK_IMAGE_ASPECT_COLOR_BIT;
     ivi_baseMipLevel := 0;
     ivi_levelCount := 1;
     ivi_baseArrayLayer := 0;
     ivi_layerCount := 1 |}.

(** One iteration of the loop of [CreateImageViews]; the call writes the
    new handle through [&m_swapChainImageViews[i]] before its result is
    checked. *)
Definition CreateImageViews_body (logicalDevice : VkDevice) (i : nat)
  (this : Swapchain) : M Swapchain :=
  image ← checked (m_swapChainImages this !! i);
  let createInfo := imageViewCreateInfo image (m_swapChainImageFormat this) in
  '(result, view) ← vkCreateImageView logicalDevice createInfo;
  let this := set_imageViews (<[i := view]> (m_swapChainImageViews this)) this in
  _ ← ErrorCheck result;
  mret this.

(** [Swapchain::CreateImageViews]. *)
Definition CreateImageViews (logicalDevice : VkDevice) (this : Swapchain)
  : M Swapchain :=
  let this := set_imageViews
                (resize (length (m_swapChainImages this)) VK_NULL_HANDLE
                        (m_swapChainImageViews this)) this in
  for_each (CreateImageViews_body logicalDevice)
           (seq 0 (length (m_swapChainImages this))) this.

Definition swapchainCreateInfo (surface : VkSurfaceKHR) (imageCount : Z)
  (surfaceFormat : VkSurfaceFormatKHR) (extent : VkExtent2D)
  (preTransform : Z) (presentMode : VkPresentModeKHR) : VkSwapchainCreateInfoKHR :=
  {| sci_surface := surface;
     sci_minImageCount := imageCount;
     sci_imageFormat := format surfaceFormat;
     sci_imageColorSpace := colorSpace surfaceFormat;
     sci_imageExtent := extent;
     sci_imageArrayLayers := 1;
     sci_imageUsage := VK_IMAGE_USAGE_COLOR_ATTACHMENT_BIT;
     sci_imageSharingMode := VK_SHARING_MODE_EXCLUSIVE;
     sci_preTransform := preTransform;
     sci_compositeAlpha := VK_COMPOSITE_ALPHA_OPAQUE_BIT_KHR;
     sci_presentMode := presentMode;
     sci_clipped := VK_TRUE;
     sci_oldSwapchain := VK_NULL_HANDLE |}.

(** What the second image query of [Create] is asked: the count and the
    slots of a vector of [n] images, or a count probe when the vector is
    empty and its [data()] is null. *)
Definition image_request (null : bool) (n : nat) : option (Z * nat) :=
  if null && bool_decide (n = 0%nat) then None else Some (Z.of_nat n, n).

(** Lines 64-67 of [Create]: the count probe with [imageCount] as it stands,
    the resize to what [imageCount] holds afterwards, and the second call
    with [m_swapChainImages.data()], which writes into the vector unless the
    pointer is null. *)
Definition Create_images (logicalDevice : VkDevice) (imageCount : Z)
  (this : Swapchain) : M Swapchain :=
  '(_, imageCount, _) ← vkGetSwapchainImagesKHR logicalDevice (m_swapChain this)
                           imageCount None;
  let this := set_images
                (resize (Z.to_nat imageCount) VK_NULL_HANDLE (m_swapChainImages this))
                this in
  pSwapchainImages ← vector_data (m_swapChainImages this);
  '(_, imageCount, data) ← vkGetSwapchainImagesKHR logicalDevice (m_swapChain this)
                              imageCount pSwapchainImages;
  mret (match pSwapchainImages with
        | Some _ => set_images data this
        | None => this
        end).

(** [Swapchain::Create].  The two [printf] lines are not modelled. *)
Definition Create (logicalDevice : VkDevice) (physicalDevice : VkPhysicalDevice)
  (surface : VkSurfaceKHR) (window : GLFWwindow) (this : Swapchain) : M Swapchain :=
  let this := set_logicalDevice logicalDevice this in
  swapChainSupport ← QuerySwapChainSupport physicalDevice surface;
  surfaceFormat ← checked (ChooseSwapSurfaceFormat (formats swapChainSupport));
  let presentMode := ChooseSwapPresentMode (presentModes swapChainSupport) in
  extent ← ChooseSwapExtent (capabilities swapChainSupport) window;
  let imageCount := Create_imageCount (capabilities swapChainSupport) in
  let createInfo :=
    swapchainCreateInfo surface imageCount surfaceFormat extent
      (currentTransform (capabilities swapChainSupport)) presentMode in
  '(result, chain) ← vkCreateSwapchainKHR logicalDevice createInfo;
  let this := set_swapChain chain this in
  _ ← ErrorCheck result;
  this ← Create_images logicalDevice imageCount this;
  let this := set_imageFormat (format surfaceFormat) this in
  let this := set_extent extent this in
  CreateImageViews logicalDevice this.

Definition framebufferCreateInfo (renderPass : VkRenderPass) (view : VkImageView)
  (extent : VkExtent2D) : VkFramebufferCreateInfo :=
  {| fbi_renderPass := renderPass;
     fbi_attachments := [view];
     fbi_width := width extent;
     fbi_height := height extent;
     fbi_layers := 1 |}.

Definition CreateFramebuffers_body (logicalDevice : VkDevice) (renderPass : VkRenderPass)
  (i : nat) (this : Swapchain) : M Swapchain :=
  view ← checked (m_swapChainImageViews this !! i);
  let framebufferInfo := framebufferCreateInfo renderPass view (m_swapChainExtent this) in
  '(result, framebuffer) ← vkCreateFramebuffer logicalDevice framebufferInfo;
  let this := set_framebuffers (<[i := framebuffer]> (m_swapChainFramebuffers this)) this in
  _ ← ErrorCheck result;
  mret this.

(** [Swapchain::CreateFramebuffers]. *)
Definition CreateFramebuffers (logicalDevice : VkDevice) (renderPass : VkRenderPass)
  (this : Swapchain) : M Swapchain :=
  let this := set_framebuffers
                (resize (length (m_swapChainImageViews this)) VK_NULL_HANDLE
                        (m_swapChainFramebuffers this)) this in
  for_each (CreateFramebuffers_body logicalDevice renderPass)
           (seq 0 (length (m_swapChainImageViews this))) this.

Definition Cleanup_body (i : nat) (this : Swapchain) : M Swapchain :=
  view ← checked (m_swapChainImageViews this !! i);
  device ← Display_GetVkDevice;
  _ ← vkDestroyImageView device view;
  mret this.

(** [Swapchain::Cleanup]. *)
Definition Cleanup (this : Swapchain) : M Swapchain :=
  device ← Display_GetVkDevice;
  _ ← vkDeviceWaitIdle device;
  this ← for_each Cleanup_body (seq 0 (length (m_swapChainImageViews this))) this;
  device ← Display_GetVkDevice;
  _ ← vkDestroySwapchainKHR device (m_swapChain this);
  mret this.

Definition CleanupFrameBuffers_body (i : nat) (this : Swapchain) : M Swapchain :=
  framebuffer ← checked (m_swapChainFramebuffers this !! i);
  device ← Display_GetVkDevice;
  _ ← vkDestroyFramebuffer device framebuffer;
  mret this.

(** [Swapchain::CleanupFrameBuffers]. *)
Definition CleanupFrameBuffers (this : Swapchain) : M Swapchain :=
  device ← Display_GetVkDevice;
  _ ← vkDeviceWaitIdle device;
  for_each CleanupFrameBuffers_body
           (seq 0 (length (m_swapChainFramebuffers this))) this.

(** [Swapchain::~Swapchain]. *)
Definition Swapchain_destructor (this : Swapchain) : M Swapchain :=
  this ← CleanupFrameBuffers this;
  Cleanup this.

(** *** Caller-driven histories *)

Inductive Op :=
| OpCreate (logicalDevice : VkDevice) (physicalDevice : VkPhysicalDevice)
    (surface : VkSurfaceKHR) (window : GLFWwindow)
| OpCreateFramebuffers (logicalDevice : VkDevice) (renderPass : VkRenderPass).

Definition step (op : Op) (this : Swapchain) : M Swapchain :=
  match op with
  | OpCreate d p s win => Create d p s win this
  | OpCreateFramebuffers d rp => CreateFramebuffers d rp this
  end.

Fixpoint run (ops : list Op) (this : Swapchain) : M Swapchain :=
  match ops with
  | [] => mret this
  | op :: rest => this' ← step op this; run rest this'
  end.

End Model.

Definition is_OpCreateFramebuffers (op : Op) : bool :=
  match op with OpCreateFramebuffers _ _ => true | OpCreate _ _ _ _ => false end.

(** ** Properties the theorems are about *)

(** [view] is a handle the platform returned for a successful
    [vkCreateImageView] on [image] with format [fmt]. *)
Definition view_created_from (w : World) (view : VkImageView) (image : VkImage)
  (fmt : VkFormat) : Prop :=
  ∃ device,
    Call_vkCreateImageView device (imageViewCreateInfo image fmt) VK_SUCCESS view
      ∈ w_trace w.

(** [framebuffer] is a handle the platform returned for a successful
    [vkCreateFramebuffer] whose attachment array was [attachments]. *)
Definition framebuffer_created_with (w : World) (framebuffer : VkFramebuffer)
  (attachments : list VkImageView) : Prop :=
  ∃ device createInfo,
    Call_vkCreateFramebuffer device createInfo VK_SUCCESS framebuffer ∈ w_trace w ∧
    fbi_attachments createInfo = attachments.

Definition views_aligned (this : Swapchain) (w : World) : Prop :=
  length (m_swapChainImageViews this) = length (m_swapChainImages this) ∧
  ∀ i image, m_swapChainImages this !! i = Some image →
    ∃ view, m_swapChainImageViews this !! i = Some view ∧
            view_created_from w view image (m_swapChainImageFormat this).

Definition framebuffers_aligned (this : Swapchain) (w : World) : Prop :=
  length (m_swapChainFramebuffers this) = length (m_swapChainImages this) ∧
  ∀ i image, m_swapChainImages this !! i = Some image →
    ∃ view framebuffer,
      m_swapChainImageViews this !! i = Some view ∧
      m_swapChainFramebuffers this !! i = Some framebuffer ∧
      framebuffer_created_with w framebuffer [view].

(** The framebuffer sequence exists once [CreateFramebuffers] has run. *)
Definition framebuffers_exist (ops : list Op) : bool :=
  existsb is_OpCreateFramebuffers ops.

(** The framebuffer sequence is current when [CreateFramebuffers] was the
    latest operation, so no [Create] has replaced the views since. *)
Definition framebuffers_current (ops : list Op) : bool :=
  match list.last ops with
  | Some op => is_OpCreateFramebuffers op
  | None => false
  end.

(** The index-alignment invariant over every history of [Create] and
    [CreateFramebuffers] calls on a fresh object. *)
Definition index_alignment_claim : Prop :=
  ∀ pf ops w0 this w,
    run pf ops Swapchain_new w0 = Done this w →
    views_aligned this w ∧
    (framebuffers_exist ops = true → framebuffers_aligned this w).

(** The calls a run added to the trace. *)
Definition new_events (w w' : World) : list Event := drop (now w) (w_trace w').

(** Every call of a run that hands back a result code and still lets the
    run finish normally handed back [VK_SUCCESS]. *)
Definition no_result_ignored {A} (m : M A) : Prop :=
  ∀ w a w', m w = Done a w' →
    ∀ e r, e ∈ new_events w w' → event_result e = Some r → r = VK_SUCCESS.

Definition every_result_checked_claim : Prop :=
  ∀ pf this,
    (∀ d p s win, no_result_ignored (Create pf d p s win this)) ∧
    (∀ d rp, no_result_ignored (CreateFramebuffers pf d rp this)) ∧
    (∀ d, no_result_ignored (CreateImageViews pf d this)) ∧
    (∀ p s, no_result_ignored (QuerySwapChainSupport pf p s)) ∧
    no_result_ignored (Cleanup pf this) ∧
    no_result_ignored (CleanupFrameBuffers pf this).

(** The same for the three creation calls only, together with what happens
    when one of them fails: the run is terminated with the failing code, and
    the failing creation is the last call it made. *)
Definition creations_checked {A} (m : M A) : Prop :=
  ∀ w,
    match m w with
    | Done _ w' =>
        ∀ e r, e ∈ new_events w w' → is_create e = true →
               event_result e = Some r → r = VK_SUCCESS
    | Fatal r w' =>
        r ≠ VK_SUCCESS ∧
        ∃ e, list.last (new_events w w') = Some e ∧ is_create e = true ∧
             event_result e = Some r
    | Undefined _ => True
    end.

(** The image-count rule as the specification states it, over the
    integers. *)
Definition image_count_claim (caps : VkSurfaceCapabilitiesKHR) : Prop :=
  Create_imageCount caps =
    (if bool_decide (maxImageCount caps ≠ 0 ∧
                     minImageCount caps + 1 > maxImageCount caps)
     then maxImageCount caps
     else minImageCount caps + 1) ∧
  (maxImageCount caps ≠ 0 →
   minImageCount caps ≤ Create_imageCount caps ≤ maxImageCount caps).

(** The format selection as the specification states it: on every
    non-empty sequence the code returns what the stated reference
    definition returns. *)
Definition surface_format_claim : Prop :=
  ∀ fs, fs ≠ [] → ChooseSwapSurfaceFormat fs = Some (SelectSurfaceFormat_stated fs).

(** The extent selection as the specification states it: a defined current
    extent is returned as it is, and otherwise each axis is the window
    dimension clamped into [minImageExtent, maxImageExtent]. *)
Definition extent_claim (pf : Platform) : Prop :=
  ∀ caps window w extent w',
    ChooseSwapExtent pf caps window w = Done extent w' →
    if bool_decide (width (currentExtent caps) = UINT32_MAX)
    then
      width extent =
        clamp_reference (width (minImageExtent caps)) (width (maxImageExtent caps))
                        (p_windowSize pf (now w)).1 ∧
      height extent =
        clamp_reference (height (minImageExtent caps)) (height (maxImageExtent caps))
                        (p_windowSize pf (now w)).2
    else extent = currentExtent caps.

(** The image retrieval as the specification states it: when [Create]
    finishes, the object stores as many images as the platform holds for the
    chain. *)
Definition stored_count_claim (pf : Platform) : Prop :=
  ∀ logicalDevice physicalDevice surface window this w this' w',
    Create pf logicalDevice physicalDevice surface window this w = Done this' w' →
    length (m_swapChainImages this') = length (chain_images w' (m_swapChain this')).

(** The calls of the two teardown functions, in order, when they start at
    time [t]. *)
Definition CleanupFrameBuffers_calls (pf : Platform) (t : nat)
  (framebuffers : list VkFramebuffer) : list Event :=
  Call_vkDeviceWaitIdle (p_display pf t) (p_result pf t) ::
  imap (λ i fb, Call_vkDestroyFramebuffer (p_display pf (S t + i)) fb) framebuffers.

Definition Cleanup_calls (pf : Platform) (t : nat) (views : list VkImageView)
  (chain : VkSwapchainKHR) : list Event :=
  Call_vkDeviceWaitIdle (p_display pf t) (p_result pf t) ::
  imap (λ i v, Call_vkDestroyImageView (p_display pf (S t + i)) v) views ++
  [Call_vkDestroySwapchainKHR (p_display pf (S t + length views)) chain].

Definition extend (w : World) (calls : list Event) : World :=
  {| w_trace := w_trace w ++ calls; w_next := w_next w; w_chains := w_chains w |}.

(** Every destroying call has a device-idle wait before it. *)
Definition wait_precedes_destruction (calls : list Event) : Prop :=
  ∀ i e, calls !! i = Some e → is_destroy e = true →
    ∃ j e', (j < i)%nat ∧ calls !! j = Some e' ∧ is_wait_idle e' = true.

(** Every framebuffer is destroyed before any view or the chain is. *)
Definition framebuffers_destroyed_first (calls : list Event) : Prop :=
  ∀ i j e1 e2, calls !! i = Some e1 → calls !! j = Some e2 →
    is_destroy_framebuffer e1 = true → is_destroy_view_or_chain e2 = true →
    (i < j)%nat.

(** ** Example platforms *)

Definition INT_MAX : Z := 2147483647.

Definition caps_of (minCount maxCount : Z) (current : VkExtent2D)
  : VkSurfaceCapabilitiesKHR :=
  {| minImageCount := minCount; maxImageCount := maxCount;
     currentExtent := current;
     minImageExtent := {| width := 1; height := 1 |};
     maxImageExtent := {| width := 4096; height := 4096 |};
     currentTransform := 1 |}.

(** A desktop driver: every call succeeds, the extent is dictated, and the
    chain gets as many images as were asked for. *)
Definition desktop : Platform :=
  {| p_result := λ _, VK_SUCCESS;
     p_capabilities := λ _, caps_of 2 0 {| width := 1920; height := 1080 |};
     p_formats := λ _, [preferredFormat];
     p_presentModes := λ _, [VK_PRESENT_MODE_FIFO_KHR; VK_PRESENT_MODE_MAILBOX_KHR];
     p_imageCount := λ _ n, Z.to_nat n;
     p_windowSize := λ _, (800, 600);
     p_display := λ _, 7%N;
     p_nullData := λ _, true;
     p_errorCount := λ _ count, count;
     p_errorImage := λ _ _ image, image |}.

(** The same driver, allocating two images more than were asked for. *)
Definition generous : Platform :=
  {| p_result := p_result desktop;
     p_capabilities := p_capabilities desktop;
     p_formats := p_formats desktop;
     p_presentModes := p_presentModes desktop;
     p_imageCount := λ _ n, (Z.to_nat n + 2)%nat;
     p_windowSize := p_windowSize desktop;
     p_display := p_display desktop;
     p_nullData := p_nullData desktop;
     p_errorCount := p_errorCount desktop;
     p_errorImage := p_errorImage desktop |}.

(** A compositor that accepts any size: the current extent is the
    sentinel. *)
Definition wayland : Platform :=
  {| p_result := p_result desktop;
     p_capabilities := λ _, caps_of 2 3 {| width := UINT32_MAX; height := UINT32_MAX |};
     p_formats := p_formats desktop;
     p_presentModes := p_presentModes desktop;
     p_imageCount := p_imageCount desktop;
     p_windowSize := λ _, (5000, 600);
     p_display := p_display desktop;
     p_nullData := p_nullData desktop;
     p_errorCount := p_errorCount desktop;
     p_errorImage := p_errorImage desktop |}.

(** A surface that reports no formats at all. *)
Definition formatless : Platform :=
  {| p_result := p_result desktop;
     p_capabilities := p_capabilities desktop;
     p_formats := λ _, [];
     p_presentModes := p_presentModes desktop;
     p_imageCount := p_imageCount desktop;
     p_windowSize := p_windowSize desktop;
     p_display := p_display desktop;
     p_nullData := p_nullData desktop;
     p_errorCount := p_errorCount desktop;
     p_errorImage := p_errorImage desktop |}.

(** A device that is lost: every call that reports a result reports
    [VK_ERROR_DEVICE_LOST]. *)
Definition device_lost : Platform :=
  {| p_result := λ _, VK_ERROR_DEVICE_LOST;
     p_capabilities := p_capabilities desktop;
     p_formats := p_formats desktop;
     p_presentModes := p_presentModes desktop;
     p_imageCount := p_imageCount desktop;
     p_windowSize := p_windowSize desktop;
     p_display := p_display desktop;
     p_nullData := p_nullData desktop;
     p_errorCount := p_errorCount desktop;
     p_errorImage := p_errorImage desktop |}.

(** The desktop driver, except that the call made at time [k] answers
    [r]. *)
Definition answering (k : nat) (r : VkResult) : Platform :=
  {| p_result := λ t, if bool_decide (t = k) then r else VK_SUCCESS;
     p_capabilities := p_capabilities desktop;
     p_formats := p_formats desktop;
     p_presentModes := p_presentModes desktop;
     p_imageCount := p_imageCount desktop;
     p_windowSize := p_windowSize desktop;
     p_display := p_display desktop;
     p_nullData := p_nullData desktop;
     p_errorCount := p_errorCount desktop;
     p_errorImage := p_errorImage desktop |}.

(** The desktop driver after the surface changed: chains created from the
    tenth call on get one image more. *)
Definition regrown : Platform :=
  {| p_result := p_result desktop;
     p_capabilities := p_capabilities desktop;
     p_formats := p_formats desktop;
     p_presentModes := p_presentModes desktop;
     p_imageCount := λ t n, if bool_decide (t < 10)%nat then Z.to_nat n
                            else S (Z.to_nat n);
     p_windowSize := p_windowSize desktop;
     p_display := p_display desktop;
     p_nullData := p_nullData desktop;
     p_errorCount := p_errorCount desktop;
     p_errorImage := p_errorImage desktop |}.

(** The compositor of [wayland] with a window that reports a negative
    width and height. *)
Definition inverted : Platform :=
  {| p_result := p_result wayland;
     p_capabilities := p_capabilities wayland;
     p_formats := p_formats wayland;
     p_presentModes := p_presentModes wayland;
     p_imageCount := p_imageCount wayland;
     p_windowSize := λ _, (-1, -600);
     p_display := p_display wayland;
     p_nullData := p_nullData wayland;
     p_errorCount := p_errorCount wayland;
     p_errorImage := p_errorImage wayland |}.

(** A surface that reports two formats to the count probe and only the
    first of them to the filling call. *)
Definition shrinking : Platform :=
  {| p_result := p_result desktop;
     p_capabilities := p_capabilities desktop;
     p_formats := λ t, if bool_decide (t ≤ 1)%nat
                       then [preferredFormat;
                             {| format := VK_FORMAT_R8G8B8A8_UNORM; colorSpace := 0 |}]
                       else [preferredFormat];
     p_presentModes := p_presentModes desktop;
     p_imageCount := p_imageCount desktop;
     p_windowSize := p_windowSize desktop;
     p_display := p_display desktop;
     p_nullData := p_nullData desktop;
     p_errorCount := p_errorCount desktop;
     p_errorImage := p_errorImage desktop |}.

(** The generous driver running out of host memory in the seventh call,
    which in a first [Create] is the count probe for the images; the filling
    call after it reports that there were more images than slots. *)
Definition exhausted : Platform :=
  {| p_result := λ t, if bool_decide (t = 6%nat) then VK_ERROR_OUT_OF_HOST_MEMORY
                      else if bool_decide (t = 7%nat) then VK_INCOMPLETE
                      else VK_SUCCESS;
     p_capabilities := p_capabilities generous;
     p_formats := p_formats generous;
     p_presentModes := p_presentModes generous;
     p_imageCount := p_imageCount generous;
     p_windowSize := p_windowSize generous;
     p_display := p_display generous;
     p_nullData := p_nullData generous;
     p_errorCount := p_errorCount generous;
     p_errorImage := p_errorImage generous |}.

(** A driver whose chains have no images. *)
Definition imageless : Platform :=
  {| p_result := p_result desktop;
     p_capabilities := p_capabilities desktop;
     p_formats := p_formats desktop;
     p_presentModes := p_presentModes desktop;
     p_imageCount := λ _ _, 0%nat;
     p_windowSize := p_windowSize desktop;
     p_display := p_display desktop;
     p_nullData := p_nullData desktop;
     p_errorCount := p_errorCount desktop;
     p_errorImage := p_errorImage desktop |}.

(** An object whose chain, views and framebuffers were built on
    [desktop]. *)
Definition built : Swapchain :=
  {| m_logicalDevice := 7%N; m_swapChain := 1%N;
     m_swapChainImages := [2; 3; 4]%N;
     m_swapChainImageViews := [5; 6; 7]%N;
     m_swapChainFramebuffers := [8; 9; 10]%N;
     m_swapChainImageFormat := VK_FORMAT_B8G8R8A8_UNORM;
     m_swapChainExtent := {| width := 1920; height := 1080 |} |}.

(** ** Assertions on outcomes *)

(** [post m w Q F U]: the outcome of [m] from [w] satisfies [Q] when the run
    finishes, [F] when the error check terminates it, [U] when it reads out
    of bounds. *)
Definition post {A} (m : M A) (w : World) (Q : A → World → Prop)
  (F : VkResult → World → Prop) (U : World → Prop) : Prop :=
  match m w with
  | Done a w' => Q a w'
  | Fatal r w' => F r w'
  | Undefined w' => U w'
  end.

(** A creation call in the trace is checked when it succeeded. *)
Definition checked_event (e : Event) : Prop :=
  is_create e = true → event_result e = Some VK_SUCCESS.

(** Since [w0], calls were only added, and every creation succeeded. *)
Definition ok (w0 w : World) : Prop :=
  ∃ calls, w_trace w = w_trace w0 ++ calls ∧ Forall checked_event calls.

(** Since [w0], calls were only added, and the last one is a creation to
    which the platform answered the failure code [r]. *)
Definition bad (pf : Platform) (w0 : World) (r : VkResult) (w : World) : Prop :=
  r ≠ VK_SUCCESS ∧ (∃ t, p_result pf t = r) ∧
  ∃ calls e, w_trace w = w_trace w0 ++ calls ++ [e] ∧
             is_create e = true ∧ event_result e = Some r.

(** Between a creation call and its error check. *)
Definition pending (pf : Platform) (w0 : World) (r : VkResult) (w : World) : Prop :=
  (r = VK_SUCCESS → ok w0 w) ∧ (r ≠ VK_SUCCESS → bad pf w0 r w).

(** ** Handles created and destroyed, and the calls of the builders *)

Definition INT_MIN : Z := -2147483648.

(** The handle a successful creation call returned. *)
Definition created_handle (e : Event) : option Handle :=
  match e with
  | Call_vkCreateSwapchainKHR _ _ r h
  | Call_vkCreateImageView _ _ r h
  | Call_vkCreateFramebuffer _ _ r h =>
      if bool_decide (r = VK_SUCCESS) then Some h else None
  | _ => None
  end.

(** The handle a destroying call was given. *)
Definition destroyed_handle (e : Event) : option Handle :=
  match e with
  | Call_vkDestroyImageView _ h
  | Call_vkDestroySwapchainKHR _ h
  | Call_vkDestroyFramebuffer _ h => Some h
  | _ => None
  end.

Definition created (calls : list Event) : list Handle := omap created_handle calls.
Definition destroyed (calls : list Event) : list Handle := omap destroyed_handle calls.

(** Calls that only read from the platform. *)
Definition is_query (e : Event) : bool :=
  match e with
  | Call_vkGetPhysicalDeviceSurfaceCapabilitiesKHR _ _ _
  | Call_vkGetPhysicalDeviceSurfaceFormatsKHR _ _ _ _
  | Call_vkGetPhysicalDeviceSurfacePresentModesKHR _ _ _ _
  | Call_glfwGetWindowSize _
  | Call_vkGetSwapchainImagesKHR _ _ _ _ => true
  | _ => false
  end.

(** The calls of a finished [CreateImageViews]: one successful creation per
    image, in index order, each returning the view stored at that index. *)
Definition CreateImageViews_calls (device : VkDevice) (fmt : VkFormat)
  (images : list VkImage) (views : list VkImageView) : list Event :=
  zip_with (λ image view,
              Call_vkCreateImageView device (imageViewCreateInfo image fmt)
                VK_SUCCESS view) images views.

(** The calls of a finished [CreateFramebuffers]: one successful creation
    per view, in index order. *)
Definition CreateFramebuffers_calls (device : VkDevice) (renderPass : VkRenderPass)
  (extent : VkExtent2D) (views : list VkImageView) (framebuffers : list VkFramebuffer)
  : list Event :=
  zip_with (λ view fb,
              Call_vkCreateFramebuffer device
                (framebufferCreateInfo renderPass view extent) VK_SUCCESS fb)
           views framebuffers.

(** ** Selection helpers *)

Lemma is_preferred_spec (f : VkSurfaceFormatKHR) :
  is_preferred f = bool_decide (f = preferredFormat).
Proof.
  destruct f as [fmt cs]. unfold is_preferred, preferredFormat. simpl.
  repeat case_bool_decide; simpl; congruence.
Qed.

Lemma ChooseSwapSurfaceFormat_scan_find (fs : list VkSurfaceFormatKHR) :
  ChooseSwapSurfaceFormat_scan fs = List.find (λ e, bool_decide (e = preferredFormat)) fs.
Proof.
  induction fs as [|f fs IH]; simpl; [done|].
  rewrite is_preferred_spec. by destruct (bool_decide (f = preferredFormat)).
Qed.

Lemma ChooseSwapSurfaceFormat_sole_undefined (fs : list VkSurfaceFormatKHR) :
  bool_decide (length fs = 1%nat) &&
  bool_decide (format <$> fs !! 0%nat = Some VK_FORMAT_UNDEFINED) = sole_undefined fs.
Proof.
  destruct fs as [|e [|e' fs]]; simpl; try done.
  repeat case_bool_decide; simpl; congruence.
Qed.

(** C4, as stated, fails on a sequence of several entries of which one is
    undefined: on [R8G8B8A8_UNORM; UNDEFINED] the sequence contains exactly
    one entry whose format is undefined, so the stated reference gives the
    preferred pair, while the code tests [size() == 1] first and then falls
    back to the first entry. *)
Lemma surface_format_claim_fails : ¬ surface_format_claim.
Proof.
  intros Hclaim.
  specialize (Hclaim [ {| format := VK_FORMAT_R8G8B8A8_UNORM; colorSpace := 0 |};
                       {| format := VK_FORMAT_UNDEFINED; colorSpace := 0 |} ]).
  discriminate Hclaim. discriminate.
Qed.

(** C4, amended: on every non-empty format sequence [ChooseSwapSurfaceFormat]
    returns what the reference definition returns: the preferred pair
    (B8G8R8A8_UNORM, SRGB_NONLINEAR) when the sequence consists of exactly
    one entry and that entry has the undefined format; otherwise the first
    entry equal to the preferred pair; otherwise the first entry. *)
Theorem ChooseSwapSurfaceFormat_reference (fs : list VkSurfaceFormatKHR) :
  fs ≠ [] →
  ChooseSwapSurfaceFormat fs = Some (SelectSurfaceFormat_reference fs).
Proof.
  intros Hne. unfold ChooseSwapSurfaceFormat, SelectSurfaceFormat_reference.
  rewrite ChooseSwapSurfaceFormat_sole_undefined, ChooseSwapSurfaceFormat_scan_find.
  destruct (sole_undefined fs); [done|].
  destruct (List.find _ fs); [done|].
  by destruct fs.
Qed.

Lemma ChooseSwapSurfaceFormat_reference_witness :
  ChooseSwapSurfaceFormat
    [ {| format := VK_FORMAT_R8G8B8A8_UNORM; colorSpace := 0 |}; preferredFormat ]
  = Some (SelectSurfaceFormat_reference
    [ {| format := VK_FORMAT_R8G8B8A8_UNORM; colorSpace := 0 |}; preferredFormat ]).
Proof. apply ChooseSwapSurfaceFormat_reference. discriminate. Defined.

(** The three branches of the reference definition, on examples. *)
Example SelectSurfaceFormat_examples :
  ChooseSwapSurfaceFormat [ {| format := VK_FORMAT_UNDEFINED; colorSpace := 7 |} ]
    = Some preferredFormat ∧
  ChooseSwapSurfaceFormat
    [ {| format := VK_FORMAT_R8G8B8A8_UNORM; colorSpace := 0 |}; preferredFormat ]
    = Some preferredFormat ∧
  ChooseSwapSurfaceFormat
    [ {| format := VK_FORMAT_R8G8B8A8_UNORM; colorSpace := 0 |};
      {| format := VK_FORMAT_B8G8R8A8_UNORM; colorSpace := 1 |} ]
    = Some {| format := VK_FORMAT_R8G8B8A8_UNORM; colorSpace := 0 |}.
Proof. by vm_compute. Qed.

(** An undefined entry that is not alone is an ordinary entry: the size
    test of the first branch fails and the scan and the fallback apply. *)
Example ChooseSwapSurfaceFormat_undefined_among_others :
  ChooseSwapSurfaceFormat
    [ {| format := VK_FORMAT_UNDEFINED; colorSpace := 0 |};
      {| format := VK_FORMAT_R8G8B8A8_UNORM; colorSpace := 0 |} ]
  = Some {| format := VK_FORMAT_UNDEFINED; colorSpace := 0 |}.
Proof. by vm_compute. Qed.

Lemma bool_decide_elem_of_cons_ne {A} `{EqDecision A} (x y : A) (l : list A) :
  y ≠ x → bool_decide (x ∈ y :: l) = bool_decide (x ∈ l).
Proof.
  intros Hne. apply bool_decide_ext. rewrite elem_of_cons.
  split; [intros [?|?]; [congruence|done] | by right].
Qed.

(** C3: [ChooseSwapPresentMode] returns mailbox whenever mailbox occurs in
    the sequence (wherever immediate occurs), immediate when immediate
    occurs and mailbox does not, and FIFO when neither occurs. *)
Theorem ChooseSwapPresentMode_precedence (modes : list VkPresentModeKHR) :
  ChooseSwapPresentMode modes =
    if bool_decide (VK_PRESENT_MODE_MAILBOX_KHR ∈ modes)
    then VK_PRESENT_MODE_MAILBOX_KHR
    else if bool_decide (VK_PRESENT_MODE_IMMEDIATE_KHR ∈ modes)
    then VK_PRESENT_MODE_IMMEDIATE_KHR
    else VK_PRESENT_MODE_FIFO_KHR.
Proof.
  unfold ChooseSwapPresentMode.
  generalize VK_PRESENT_MODE_FIFO_KHR as bestMode.
  induction modes as [|m modes IH]; intros bestMode; simpl.
  - (* nothing scanned: the remembered mode is returned *)
    repeat case_bool_decide; try done; exfalso; by eapply not_elem_of_nil.
  - destruct (bool_decide_reflect (m = VK_PRESENT_MODE_MAILBOX_KHR)) as [->|Hm].
    { (* mailbox: returned at once *)
      rewrite bool_decide_eq_true_2; [done | by left]. }
    rewrite (bool_decide_elem_of_cons_ne _ m) by done.
    destruct (bool_decide_reflect (m = VK_PRESENT_MODE_IMMEDIATE_KHR)) as [->|Hi].
    + (* immediate: remembered, the scan goes on *)
      rewrite IH. rewrite (bool_decide_eq_true_2 (_ ∈ _ :: _)); [|by left].
      by repeat case_bool_decide.
    + rewrite IH. by rewrite (bool_decide_elem_of_cons_ne _ m) by done.
Qed.

Example ChooseSwapPresentMode_examples :
  ChooseSwapPresentMode
    [VK_PRESENT_MODE_IMMEDIATE_KHR; VK_PRESENT_MODE_FIFO_KHR; VK_PRESENT_MODE_MAILBOX_KHR]
    = VK_PRESENT_MODE_MAILBOX_KHR ∧
  ChooseSwapPresentMode [VK_PRESENT_MODE_FIFO_KHR; VK_PRESENT_MODE_IMMEDIATE_KHR]
    = VK_PRESENT_MODE_IMMEDIATE_KHR ∧
  ChooseSwapPresentMode [VK_PRESENT_MODE_FIFO_RELAXED_KHR] = VK_PRESENT_MODE_FIFO_KHR ∧
  ChooseSwapPresentMode [] = VK_PRESENT_MODE_FIFO_KHR.
Proof. by vm_compute. Qed.

(** The image count asked for, on 32-bit unsigned inputs. *)
Lemma wrap32_small (z : Z) : 0 ≤ z ≤ UINT32_MAX → wrap32 z = z.
Proof. unfold wrap32, UINT32_MAX. intros. apply Z.mod_small. lia. Qed.

(** C6, as stated, fails where the 32-bit sum wraps: with
    minImageCount = maxImageCount = 4294967295 the code computes
    [imageCount = 0], which is neither minImageCount + 1 reduced to
    maxImageCount nor inside [minImageCount, maxImageCount]. *)
Lemma image_count_claim_fails :
  Create_imageCount (caps_of UINT32_MAX UINT32_MAX {| width := 0; height := 0 |}) = 0 ∧
  ¬ image_count_claim (caps_of UINT32_MAX UINT32_MAX {| width := 0; height := 0 |}).
Proof.
  split; [by vm_compute|].
  intros [_ Hrange]. simpl in Hrange.
  assert (Hv : Create_imageCount
                 (caps_of UINT32_MAX UINT32_MAX {| width := 0; height := 0 |}) = 0)
    by (by vm_compute).
  rewrite Hv in Hrange. unfold UINT32_MAX in Hrange. lia.
Qed.

(** C6, amended: the image count asked for is minImageCount + 1 computed in
    32-bit unsigned arithmetic, replaced by maxImageCount exactly when
    maxImageCount is nonzero and smaller than that sum.  The sum is
    minImageCount + 1 unless minImageCount is 4294967295.  With a nonzero
    maxImageCount the result is at most maxImageCount, and it is at least
    minImageCount when minImageCount ≤ maxImageCount and the sum does not
    wrap.  min = 2, max = 3 gives 3, and min = 2, max = 0 gives 3. *)
Theorem Create_imageCount_spec (caps : VkSurfaceCapabilitiesKHR) :
  is_uint32 (minImageCount caps) → is_uint32 (maxImageCount caps) →
  Create_imageCount caps =
    (if bool_decide (maxImageCount caps ≠ 0 ∧
                     wrap32 (minImageCount caps + 1) > maxImageCount caps)
     then maxImageCount caps
     else wrap32 (minImageCount caps + 1)) ∧
  (minImageCount caps < UINT32_MAX →
   wrap32 (minImageCount caps + 1) = minImageCount caps + 1) ∧
  (maxImageCount caps ≠ 0 → Create_imageCount caps ≤ maxImageCount caps) ∧
  (maxImageCount caps ≠ 0 → minImageCount caps ≤ maxImageCount caps →
   minImageCount caps < UINT32_MAX →
   minImageCount caps ≤ Create_imageCount caps) ∧
  (minImageCount caps = 2 → maxImageCount caps = 3 → Create_imageCount caps = 3) ∧
  (minImageCount caps = 2 → maxImageCount caps = 0 → Create_imageCount caps = 3).
Proof.
  unfold is_uint32, Create_imageCount. intros [Hmin0 Hmin1] [Hmax0 Hmax1].
  assert (Hsmall : minImageCount caps < UINT32_MAX →
                   wrap32 (minImageCount caps + 1) = minImageCount caps + 1).
  { intros. apply wrap32_small. lia. }
  assert (Hwrap : 0 ≤ wrap32 (minImageCount caps + 1)).
  { unfold wrap32. apply Z.mod_pos_bound. lia. }
  repeat split.
  - repeat case_bool_decide; simpl; try done; lia.
  - done.
  - intros. repeat case_bool_decide; simpl; lia.
  - intros ? ? Hlt. rewrite (Hsmall Hlt). repeat case_bool_decide; simpl; lia.
  - intros Hm HM. rewrite Hm, HM. by vm_compute.
  - intros Hm HM. rewrite Hm, HM. by vm_compute.
Qed.

Lemma Create_imageCount_spec_witness :
  is_uint32 2 ∧ is_uint32 3 ∧
  Create_imageCount (caps_of 2 3 {| width := 0; height := 0 |}) = 3.
Proof.
  assert (H2 : is_uint32 2) by (unfold is_uint32, UINT32_MAX; lia).
  assert (H3 : is_uint32 3) by (unfold is_uint32, UINT32_MAX; lia).
  split; [exact H2|]. split; [exact H3|].
  destruct (Create_imageCount_spec (caps_of 2 3 {| width := 0; height := 0 |}) H2 H3)
    as (_ & _ & _ & _ & Hscenario & _).
  apply Hscenario; reflexivity.
Defined.

(** One axis of the extent: for an interval with [lo ≤ hi] and a window
    dimension that is a non-negative [int], the code computes the clamp. *)
Lemma ChooseSwapExtent_axis_clamp (lo hi v : Z) :
  lo ≤ hi → 0 ≤ v ≤ INT_MAX →
  ChooseSwapExtent_axis lo hi v = clamp_reference lo hi v ∧
  lo ≤ ChooseSwapExtent_axis lo hi v ≤ hi.
Proof.
  intros Hlh Hv. unfold ChooseSwapExtent_axis, clamp_reference, static_cast_uint32.
  rewrite wrap32_small by (unfold INT_MAX, UINT32_MAX in *; lia).
  repeat case_bool_decide; lia.
Qed.

(** One axis of the extent for any window dimension: what is clamped is the
    dimension converted to [uint32_t]; and an interval given with
    [hi < lo] yields [lo]. *)
Lemma ChooseSwapExtent_axis_cast (lo hi v : Z) :
  (lo ≤ hi →
   ChooseSwapExtent_axis lo hi v = clamp_reference lo hi (static_cast_uint32 v) ∧
   lo ≤ ChooseSwapExtent_axis lo hi v ≤ hi) ∧
  (hi < lo → ChooseSwapExtent_axis lo hi v = lo).
Proof.
  unfold ChooseSwapExtent_axis, clamp_reference.
  split; intros Hlh; repeat case_bool_decide; lia.
Qed.

Lemma static_cast_uint32_int (v : Z) :
  - INT_MAX - 1 ≤ v ≤ INT_MAX →
  static_cast_uint32 v = if bool_decide (v < 0) then v + 2 ^ 32 else v.
Proof.
  intros Hv. unfold static_cast_uint32, wrap32, INT_MAX in *.
  case_bool_decide.
  - rewrite <- (Z.mod_add v 1) by lia. rewrite Z.mod_small; lia.
  - rewrite Z.mod_small; lia.
Qed.

(** ** Reasoning about runs *)

Lemma post_ret {A} (a : A) w (Q : A → World → Prop) F U :
  Q a w → post (mret a) w Q F U.
Proof. done. Qed.

Lemma post_bind {A B} (m : M A) (f : A → M B) w (R : A → World → Prop)
  (Q : B → World → Prop) F U :
  post m w R F U →
  (∀ a w', R a w' → post (f a) w' Q F U) →
  post (m ≫= f) w Q F U.
Proof.
  unfold post, mbind, M_bind. intros Hm Hf.
  destruct (m w) as [a w'|r w'|w']; [by apply Hf|done|done].
Qed.

Lemma post_mono {A} (m : M A) w (Q Q' : A → World → Prop)
  (F F' : VkResult → World → Prop) (U U' : World → Prop) :
  post m w Q F U →
  (∀ a w', Q a w' → Q' a w') → (∀ r w', F r w' → F' r w') →
  (∀ w', U w' → U' w') →
  post m w Q' F' U'.
Proof. unfold post. destruct (m w); auto. Qed.

Lemma post_Done {A} (m : M A) w a w' (Q : A → World → Prop) F U :
  post m w Q F U → m w = Done a w' → Q a w'.
Proof. unfold post. intros H E. by rewrite E in H. Qed.

(** The loop rule: an invariant indexed by the iterations still to run. *)
Lemma post_for_each {S} (body : nat → S → M S) (I : list nat → S → World → Prop)
  F U :
  (∀ i rest s w, I (i :: rest) s w →
     post (body i s) w (λ s' w', I rest s' w') F U) →
  ∀ indices s w, I indices s w →
    post (for_each body indices s) w (λ s' w', I [] s' w') F U.
Proof.
  intros Hbody indices. induction indices as [|i rest IH]; intros s w HI.
  - by apply post_ret.
  - simpl. eapply post_bind; [by apply Hbody|]. intros s' w' HI'. by apply IH.
Qed.

Lemma now_emit e w : now (emit e w) = S (now w).
Proof. unfold now, emit. simpl. rewrite length_app. simpl. lia. Qed.

Lemma extend_nil w : extend w [] = w.
Proof. destruct w. unfold extend. simpl. by rewrite app_nil_r. Qed.

Lemma extend_emit e w calls : extend (emit e w) calls = extend w (e :: calls).
Proof. unfold extend, emit. simpl. by rewrite <- app_assoc. Qed.

Lemma extend_extend w l1 l2 : extend (extend w l1) l2 = extend w (l1 ++ l2).
Proof. unfold extend. simpl. by rewrite <- app_assoc. Qed.

Lemma emit_extend w e : emit e w = extend w [e].
Proof. done. Qed.

Lemma now_extend w calls : now (extend w calls) = (now w + length calls)%nat.
Proof. unfold now, extend. simpl. by rewrite length_app. Qed.

Lemma new_events_extend w calls : new_events w (extend w calls) = calls.
Proof. unfold new_events, now, extend. simpl. by rewrite drop_app_length. Qed.

Lemma ok_refl w : ok w w.
Proof. exists []. by rewrite app_nil_r. Qed.

Lemma ok_step w0 w w' e :
  ok w0 w → w_trace w' = w_trace w ++ [e] → checked_event e → ok w0 w'.
Proof.
  intros (calls & Ht & Hall) Ht' He. exists (calls ++ [e]). split.
  - by rewrite Ht', Ht, app_assoc.
  - apply Forall_app. split; [done|]. by constructor.
Qed.

Lemma ok_emit w0 w e : ok w0 w → is_create e = false → ok w0 (emit e w).
Proof.
  intros Hok He. eapply ok_step; [done|done|].
  unfold checked_event. by rewrite He.
Qed.

Lemma ok_trans w0 w1 w2 : ok w0 w1 → ok w1 w2 → ok w0 w2.
Proof.
  intros (c1 & H1 & A1) (c2 & H2 & A2). exists (c1 ++ c2). split.
  - by rewrite H2, H1, app_assoc.
  - by apply Forall_app.
Qed.

Lemma bad_trans pf w0 w1 w2 r : ok w0 w1 → bad pf w1 r w2 → bad pf w0 r w2.
Proof.
  intros (c1 & H1 & _) (Hr & Ht & c2 & e & H2 & He). split; [done|]. split; [done|].
  exists (c1 ++ c2), e. split; [|done].
  by rewrite H2, H1, !app_assoc.
Qed.

Lemma ok_prefix w0 w : ok w0 w → w_trace w0 `prefix_of` w_trace w.
Proof. intros (calls & Ht & _). by exists calls. Qed.

Lemma ok_new_events w0 w :
  ok w0 w → ∀ e r, e ∈ new_events w0 w → is_create e = true →
                   event_result e = Some r → r = VK_SUCCESS.
Proof.
  intros (calls & Ht & Hall) e r Hin Hc Hr.
  unfold new_events, now in Hin. rewrite Ht, drop_app_length in Hin.
  rewrite Forall_forall in Hall. apply list_elem_of_In in Hin.
  specialize (Hall e Hin Hc). congruence.
Qed.

Lemma bad_new_events pf w0 r w :
  bad pf w0 r w →
  r ≠ VK_SUCCESS ∧
  ∃ e, list.last (new_events w0 w) = Some e ∧ is_create e = true ∧
       event_result e = Some r.
Proof.
  intros (Hr & _ & calls & e & Ht & He). split; [done|]. exists e. split; [|done].
  unfold new_events, now. by rewrite Ht, drop_app_length, last_snoc.
Qed.

Lemma pending_ErrorCheck pf w0 r w (U : World → Prop) :
  pending pf w0 r w →
  post (ErrorCheck r) w (λ _ w', w' = w ∧ r = VK_SUCCESS ∧ ok w0 w)
       (bad pf w0) U.
Proof.
  intros [Hok Hbad]. unfold post, ErrorCheck.
  case_bool_decide; [by auto|by apply Hbad].
Qed.

Section Runs.

Variable pf : Platform.

(** *** Teardown *)

Lemma for_each_CleanupFrameBuffers_body (this : Swapchain) :
  ∀ (rest : list VkFramebuffer) (k : nat) (w : World),
    (∀ j fb, rest !! j = Some fb →
             m_swapChainFramebuffers this !! (k + j)%nat = Some fb) →
    for_each (CleanupFrameBuffers_body pf) (seq k (length rest)) this w =
      Done this
        (extend w (imap (λ j fb, Call_vkDestroyFramebuffer
                                   (p_display pf (now w + j)) fb) rest)).
Proof.
  induction rest as [|fb rest IH]; intros k w Hlook; simpl.
  - by rewrite extend_nil.
  - assert (Hk : m_swapChainFramebuffers this !! k = Some fb).
    { specialize (Hlook 0%nat fb eq_refl). by rewrite Nat.add_0_r in Hlook. }
    unfold mbind, M_bind, CleanupFrameBuffers_body at 1. rewrite Hk. simpl.
    unfold mbind, M_bind. simpl.
    rewrite IH.
    + rewrite extend_emit. do 2 f_equal. rewrite Nat.add_0_r. f_equal.
      apply imap_ext. intros j x _. simpl. rewrite now_emit. do 2 f_equal. lia.
    + intros j x Hj. replace (S k + j)%nat with (k + S j)%nat by lia.
      by apply Hlook.
Qed.

Lemma for_each_Cleanup_body (this : Swapchain) :
  ∀ (rest : list VkImageView) (k : nat) (w : World),
    (∀ j v, rest !! j = Some v →
            m_swapChainImageViews this !! (k + j)%nat = Some v) →
    for_each (Cleanup_body pf) (seq k (length rest)) this w =
      Done this
        (extend w (imap (λ j v, Call_vkDestroyImageView
                                  (p_display pf (now w + j)) v) rest)).
Proof.
  induction rest as [|v rest IH]; intros k w Hlook; simpl.
  - by rewrite extend_nil.
  - assert (Hk : m_swapChainImageViews this !! k = Some v).
    { specialize (Hlook 0%nat v eq_refl). by rewrite Nat.add_0_r in Hlook. }
    unfold mbind, M_bind, Cleanup_body at 1. rewrite Hk. simpl.
    unfold mbind, M_bind. simpl.
    rewrite IH.
    + rewrite extend_emit. do 2 f_equal. rewrite Nat.add_0_r. f_equal.
      apply imap_ext. intros j x _. simpl. rewrite now_emit. do 2 f_equal. lia.
    + intros j x Hj. replace (S k + j)%nat with (k + S j)%nat by lia.
      by apply Hlook.
Qed.

Lemma CleanupFrameBuffers_run (this : Swapchain) (w : World) :
  CleanupFrameBuffers pf this w =
    Done this (extend w (CleanupFrameBuffers_calls pf (now w)
                           (m_swapChainFramebuffers this))).
Proof.
  unfold CleanupFrameBuffers, mbind, M_bind. simpl.
  rewrite (for_each_CleanupFrameBuffers_body this (m_swapChainFramebuffers this) 0)
    by done.
  rewrite extend_emit. unfold CleanupFrameBuffers_calls. do 3 f_equal.
  apply imap_ext. intros j x _. simpl. by rewrite now_emit.
Qed.

Lemma Cleanup_run (this : Swapchain) (w : World) :
  Cleanup pf this w =
    Done this (extend w (Cleanup_calls pf (now w) (m_swapChainImageViews this)
                           (m_swapChain this))).
Proof.
  unfold Cleanup, mbind, M_bind. simpl.
  rewrite (for_each_Cleanup_body this (m_swapChainImageViews this) 0) by done.
  cbv beta iota. rewrite !emit_extend, !extend_extend.
  f_equal. f_equal. unfold Cleanup_calls. simpl. f_equal. f_equal.
  - apply imap_ext. intros j x _. simpl. rewrite now_extend. simpl.
    do 2 f_equal. lia.
  - rewrite now_extend. simpl. rewrite length_imap. do 3 f_equal. lia.
Qed.

Lemma Swapchain_destructor_run (this : Swapchain) (w : World) :
  Swapchain_destructor pf this w =
    Done this
      (extend w
         (CleanupFrameBuffers_calls pf (now w) (m_swapChainFramebuffers this) ++
          Cleanup_calls pf (S (now w + length (m_swapChainFramebuffers this)))
            (m_swapChainImageViews this) (m_swapChain this))).
Proof.
  unfold Swapchain_destructor, mbind, M_bind.
  rewrite CleanupFrameBuffers_run, Cleanup_run, extend_extend, now_extend.
  do 4 f_equal. unfold CleanupFrameBuffers_calls. simpl. rewrite length_imap. lia.
Qed.

Lemma CleanupFrameBuffers_calls_lookup t fbs i e :
  CleanupFrameBuffers_calls pf t fbs !! i = Some e →
  (i = 0%nat ∧ is_wait_idle e = true ∧ is_destroy e = false) ∨
  (0 < i ∧ is_destroy_framebuffer e = true ∧ is_destroy_view_or_chain e = false)%nat.
Proof.
  unfold CleanupFrameBuffers_calls. destruct i as [|i]; simpl.
  - intros [= <-]. by left.
  - rewrite list_lookup_imap. destruct (fbs !! i); simpl; [|done].
    intros [= <-]. right. split; [lia|done].
Qed.

Lemma Cleanup_calls_lookup t views chain i e :
  Cleanup_calls pf t views chain !! i = Some e →
  (i = 0%nat ∧ is_wait_idle e = true ∧ is_destroy e = false) ∨
  (0 < i ∧ is_destroy_view_or_chain e = true ∧ is_destroy_framebuffer e = false)%nat.
Proof.
  unfold Cleanup_calls. destruct i as [|i]; simpl.
  - intros [= <-]. by left.
  - intros Hi. right. split; [lia|].
    apply lookup_app_Some in Hi as [Hi|[_ Hi]].
    + rewrite list_lookup_imap in Hi. destruct (views !! i); simpl in Hi; [|done].
      by injection Hi as <-.
    + apply list_lookup_singleton_Some in Hi as [_ <-]. done.
Qed.

Lemma wait_precedes_CleanupFrameBuffers t fbs :
  wait_precedes_destruction (CleanupFrameBuffers_calls pf t fbs).
Proof.
  intros i e Hi He.
  destruct (CleanupFrameBuffers_calls_lookup _ _ _ _ Hi) as [(_ & _ & Hn)|(Hpos & _)].
  - congruence.
  - exists 0%nat, (Call_vkDeviceWaitIdle (p_display pf t) (p_result pf t)). done.
Qed.

Lemma wait_precedes_Cleanup t views chain :
  wait_precedes_destruction (Cleanup_calls pf t views chain).
Proof.
  intros i e Hi He.
  destruct (Cleanup_calls_lookup _ _ _ _ _ Hi) as [(_ & _ & Hn)|(Hpos & _)].
  - congruence.
  - exists 0%nat, (Call_vkDeviceWaitIdle (p_display pf t) (p_result pf t)). done.
Qed.

(** C1: [CleanupFrameBuffers] always finishes, leaves every data member of
    the object as it was (the image views and the chain handle among them),
    and its calls are, in order, one [vkDeviceWaitIdle] and then one
    [vkDestroyFramebuffer] per framebuffer handle.  [Cleanup] always
    finishes, and its calls are, in order, one [vkDeviceWaitIdle], one
    [vkDestroyImageView] per view, and last [vkDestroySwapchainKHR] on the
    chain handle.  In both, every destroying call comes after a device-idle
    wait made by the same function. *)
Theorem teardown_tiers (this : Swapchain) (w : World) :
  CleanupFrameBuffers pf this w =
    Done this (extend w (CleanupFrameBuffers_calls pf (now w)
                           (m_swapChainFramebuffers this))) ∧
  Cleanup pf this w =
    Done this (extend w (Cleanup_calls pf (now w) (m_swapChainImageViews this)
                           (m_swapChain this))) ∧
  wait_precedes_destruction
    (CleanupFrameBuffers_calls pf (now w) (m_swapChainFramebuffers this)) ∧
  wait_precedes_destruction
    (Cleanup_calls pf (now w) (m_swapChainImageViews this) (m_swapChain this)).
Proof.
  split; [apply CleanupFrameBuffers_run|].
  split; [apply Cleanup_run|].
  split; [apply wait_precedes_CleanupFrameBuffers|apply wait_precedes_Cleanup].
Qed.

(** C10: the destructor always finishes, and the calls it makes are those of
    [CleanupFrameBuffers] followed by those of [Cleanup]; so every
    [vkDestroyFramebuffer] it makes comes before every [vkDestroyImageView]
    and before [vkDestroySwapchainKHR]. *)
Theorem destructor_order (this : Swapchain) (w : World) :
  ∃ calls,
    Swapchain_destructor pf this w = Done this (extend w calls) ∧
    calls =
      CleanupFrameBuffers_calls pf (now w) (m_swapChainFramebuffers this) ++
      Cleanup_calls pf (S (now w + length (m_swapChainFramebuffers this)))
        (m_swapChainImageViews this) (m_swapChain this) ∧
    framebuffers_destroyed_first calls.
Proof.
  eexists. split; [apply Swapchain_destructor_run|]. split; [done|].
  intros i j e1 e2 Hi Hj H1 H2.
  apply lookup_app_Some in Hi as [Hi|[_ Hi]]; cycle 1.
  { apply Cleanup_calls_lookup in Hi as [(_ & _ & Hn)|(_ & _ & Hn)].
    - unfold is_destroy in Hn. rewrite H1 in Hn. done.
    - congruence. }
  apply lookup_app_Some in Hj as [Hj|[Hle _]].
  { apply CleanupFrameBuffers_calls_lookup in Hj as [(_ & _ & Hn)|(_ & _ & Hn)].
    - unfold is_destroy in Hn. rewrite H2, orb_true_r in Hn. done.
    - congruence. }
  apply lookup_lt_Some in Hi. lia.
Qed.


(** *** Creation *)

Lemma post_bind_Done {A B} (m : M A) (f : A → M B) w a w1 Q F U :
  m w = Done a w1 → post (f a) w1 Q F U → post (m ≫= f) w Q F U.
Proof. unfold post, mbind, M_bind. by intros ->. Qed.

Lemma view_created_from_mono w w' view image fmt :
  w_trace w `prefix_of` w_trace w' →
  view_created_from w view image fmt → view_created_from w' view image fmt.
Proof.
  intros [calls Hc] [device Hin]. exists device. rewrite Hc.
  apply elem_of_app. by left.
Qed.

Lemma framebuffer_created_with_mono w w' fb attachments :
  w_trace w `prefix_of` w_trace w' →
  framebuffer_created_with w fb attachments →
  framebuffer_created_with w' fb attachments.
Proof.
  intros [calls Hc] (device & info & Hin & Hatt). exists device, info.
  split; [|done]. rewrite Hc. apply elem_of_app. by left.
Qed.

Lemma views_aligned_mono this w w' :
  w_trace w `prefix_of` w_trace w' → views_aligned this w → views_aligned this w'.
Proof.
  intros Hpre [Hlen Hall]. split; [done|]. intros i image Hi.
  destruct (Hall i image Hi) as (view & Hv & Hc). exists view. split; [done|].
  by eapply view_created_from_mono.
Qed.

(** What one checked creation leaves behind: the two branches of a creation
    call, on success and on failure. *)
Ltac creation_call failed :=
  match goal with
  | |- context [bool_decide (p_result ?pf (now ?w) = VK_SUCCESS)] =>
      destruct (bool_decide_reflect (p_result pf (now w) = VK_SUCCESS)) as [Hr|Hr];
      eexists _, _, _; (split; [done|]); (split; [done|]); (split; [done|]);
      [ split; [|done]; intros _; eapply ok_step; [apply ok_refl|done|];
        intros _; simpl; by rewrite Hr
      | split; [done|]; intros _; split; [done|]; split; [by exists (now w)|];
        by exists [], failed ]
  end.

Lemma vkCreateImageView_run device createInfo w :
  ∃ r view w',
    vkCreateImageView pf device createInfo w = Done (r, view) w' ∧
    w_trace w' = w_trace w ++ [Call_vkCreateImageView device createInfo r view] ∧
    w_chains w' = w_chains w ∧
    pending pf w r w'.
Proof.
  unfold vkCreateImageView.
  creation_call (Call_vkCreateImageView device createInfo
                   (p_result pf (now w)) VK_NULL_HANDLE).
Qed.

Lemma vkCreateFramebuffer_run device createInfo w :
  ∃ r fb w',
    vkCreateFramebuffer pf device createInfo w = Done (r, fb) w' ∧
    w_trace w' = w_trace w ++ [Call_vkCreateFramebuffer device createInfo r fb] ∧
    w_chains w' = w_chains w ∧
    pending pf w r w'.
Proof.
  unfold vkCreateFramebuffer.
  creation_call (Call_vkCreateFramebuffer device createInfo
                   (p_result pf (now w)) VK_NULL_HANDLE).
Qed.

Lemma pending_trans w0 w r w' : ok w0 w → pending pf w r w' → pending pf w0 r w'.
Proof.
  intros Hok [H1 H2]. split; intros Hr.
  - eapply ok_trans; [done|by apply H1].
  - eapply bad_trans; [done|by apply H2].
Qed.

Lemma seq_cons_inv (i k m : nat) (rest : list nat) :
  i :: rest = seq k m → ∃ m', m = S m' ∧ i = k ∧ rest = seq (S k) m'.
Proof. destruct m as [|m']; simpl; [done|]. intros [= -> ->]. by exists m'. Qed.

(** [CreateImageViews] from [w]: when it finishes, only the view vector of
    the object changed, and the views are aligned with the images; when it
    is terminated, a creation failed. It never reads out of bounds. *)
Lemma CreateImageViews_post logicalDevice this w :
  post (CreateImageViews pf logicalDevice this) w
    (λ this' w',
       ok w w' ∧ w_chains w' = w_chains w ∧
       this' = set_imageViews (m_swapChainImageViews this') this ∧
       views_aligned this' w')
    (bad pf w) (λ _, False).
Proof.
  unfold CreateImageViews.
  set (n := length (m_swapChainImages this)).
  set (this0 := set_imageViews _ this).
  pose (I := λ (rest : list nat) (s : Swapchain) (w' : World),
    ok w w' ∧ w_chains w' = w_chains w ∧
    s = set_imageViews (m_swapChainImageViews s) this ∧
    length (m_swapChainImageViews s) = n ∧
    ∃ k, rest = seq k (n - k) ∧ (k ≤ n)%nat ∧
      ∀ i image, (i < k)%nat → m_swapChainImages this !! i = Some image →
        ∃ view, m_swapChainImageViews s !! i = Some view ∧
                view_created_from w' view image (m_swapChainImageFormat this)).
  eapply post_mono; [apply (post_for_each _ I (bad pf w) (λ _, False))| | |].
  - (* one iteration *)
    intros i rest s w1 (Hok & Hch & Hs & Hlen & k & Hrest & Hk & Hall).
    apply seq_cons_inv in Hrest as (m' & Hm & -> & ->).
    unfold CreateImageViews_body.
    assert (Himg : m_swapChainImages s = m_swapChainImages this) by (by rewrite Hs).
    assert (Hfmt : m_swapChainImageFormat s = m_swapChainImageFormat this)
      by (by rewrite Hs).
    destruct (lookup_lt_is_Some_2 (m_swapChainImages this) k) as [image Hik];
      [fold n; lia|].
    rewrite Himg, Hik, Hfmt.
    eapply post_bind_Done; [done|].
    destruct (vkCreateImageView_run logicalDevice
                (imageViewCreateInfo image (m_swapChainImageFormat this)) w1)
      as (r & view & w2 & Hrun & Htr & Hch2 & Hpend).
    eapply post_bind_Done; [done|]. simpl.
    eapply post_bind; [apply (pending_ErrorCheck pf w); by eapply pending_trans|].
    intros _ w3 (-> & -> & Hok2). apply post_ret.
    split; [done|]. split; [congruence|]. split; [by rewrite Hs|].
    simpl. rewrite length_insert. split; [done|].
    exists (S k). split; [f_equal; lia|]. split; [lia|].
    intros j image' Hj Hij.
    destruct (decide (j = k)) as [->|Hne].
    + rewrite list_lookup_insert_eq by lia. exists view. split; [done|].
      assert (image' = image) as -> by congruence.
      exists logicalDevice. rewrite Htr. apply elem_of_app. right.
      by apply list_elem_of_singleton.
    + rewrite list_lookup_insert_ne by done.
      destruct (Hall j image') as (view' & Hv & Hc); [lia|done|].
      exists view'. split; [done|]. eapply view_created_from_mono; [|done].
      rewrite Htr. by apply prefix_app_r.
  - (* the invariant at entry *)
    unfold I. split; [apply ok_refl|]. split; [done|]. split; [done|].
    split; [unfold this0; simpl; by rewrite length_resize|].
    exists 0%nat. split; [by rewrite Nat.sub_0_r|]. split; [lia|]. intros; lia.
  - (* the invariant at exit gives the postcondition *)
    intros s w' (Hok & Hch & Hs & Hlen & k & Hrest & Hk & Hall).
    split; [done|]. split; [done|]. split; [done|].
    assert (k = n) as ->.
    { symmetry in Hrest. apply (f_equal length) in Hrest.
      rewrite length_seq in Hrest. simpl in Hrest. lia. }
    rewrite Hs. simpl. split; [done|]. intros i image Hi.
    apply Hall; [|done]. by apply lookup_lt_Some in Hi.
  - done.
  - done.
Qed.


(** [CreateFramebuffers] from [w]: when it finishes, only the framebuffer
    vector changed, it is as long as the view vector, and entry [i] was
    created with view [i] as its one attachment. *)
Lemma CreateFramebuffers_post logicalDevice renderPass this w :
  post (CreateFramebuffers pf logicalDevice renderPass this) w
    (λ this' w',
       ok w w' ∧ w_chains w' = w_chains w ∧
       this' = set_framebuffers (m_swapChainFramebuffers this') this ∧
       length (m_swapChainFramebuffers this') = length (m_swapChainImageViews this) ∧
       ∀ i view, m_swapChainImageViews this !! i = Some view →
         ∃ fb, m_swapChainFramebuffers this' !! i = Some fb ∧
               framebuffer_created_with w' fb [view])
    (bad pf w) (λ _, False).
Proof.
  unfold CreateFramebuffers.
  set (n := length (m_swapChainImageViews this)).
  set (this0 := set_framebuffers _ this).
  pose (I := λ (rest : list nat) (s : Swapchain) (w' : World),
    ok w w' ∧ w_chains w' = w_chains w ∧
    s = set_framebuffers (m_swapChainFramebuffers s) this ∧
    length (m_swapChainFramebuffers s) = n ∧
    ∃ k, rest = seq k (n - k) ∧ (k ≤ n)%nat ∧
      ∀ i view, (i < k)%nat → m_swapChainImageViews this !! i = Some view →
        ∃ fb, m_swapChainFramebuffers s !! i = Some fb ∧
              framebuffer_created_with w' fb [view]).
  eapply post_mono; [apply (post_for_each _ I (bad pf w) (λ _, False))| | |].
  - intros i rest s w1 (Hok & Hch & Hs & Hlen & k & Hrest & Hk & Hall).
    apply seq_cons_inv in Hrest as (m' & Hm & -> & ->).
    unfold CreateFramebuffers_body.
    assert (Hviews : m_swapChainImageViews s = m_swapChainImageViews this)
      by (by rewrite Hs).
    assert (Hext : m_swapChainExtent s = m_swapChainExtent this) by (by rewrite Hs).
    destruct (lookup_lt_is_Some_2 (m_swapChainImageViews this) k) as [view Hvk];
      [fold n; lia|].
    rewrite Hviews, Hvk, Hext.
    eapply post_bind_Done; [done|].
    destruct (vkCreateFramebuffer_run logicalDevice
                (framebufferCreateInfo renderPass view (m_swapChainExtent this)) w1)
      as (r & fb & w2 & Hrun & Htr & Hch2 & Hpend).
    eapply post_bind_Done; [done|]. simpl.
    eapply post_bind; [apply (pending_ErrorCheck pf w); by eapply pending_trans|].
    intros _ w3 (-> & -> & Hok2). apply post_ret.
    split; [done|]. split; [congruence|]. split; [by rewrite Hs|].
    simpl. rewrite length_insert. split; [done|].
    exists (S k). split; [f_equal; lia|]. split; [lia|].
    intros j view' Hj Hvj.
    destruct (decide (j = k)) as [->|Hne].
    + rewrite list_lookup_insert_eq by lia. exists fb. split; [done|].
      assert (view' = view) as -> by congruence.
      exists logicalDevice, (framebufferCreateInfo renderPass view (m_swapChainExtent this)).
      split; [|done]. rewrite Htr. apply elem_of_app. right.
      by apply list_elem_of_singleton.
    + rewrite list_lookup_insert_ne by done.
      destruct (Hall j view') as (fb' & Hf & Hc); [lia|done|].
      exists fb'. split; [done|]. eapply framebuffer_created_with_mono; [|done].
      rewrite Htr. by apply prefix_app_r.
  - unfold I. split; [apply ok_refl|]. split; [done|]. split; [done|].
    split; [unfold this0; simpl; by rewrite length_resize|].
    exists 0%nat. split; [by rewrite Nat.sub_0_r|]. split; [lia|]. intros; lia.
  - intros s w' (Hok & Hch & Hs & Hlen & k & Hrest & Hk & Hall).
    split; [done|]. split; [done|]. split; [done|]. split; [done|].
    assert (k = n) as ->.
    { symmetry in Hrest. apply (f_equal length) in Hrest.
      rewrite length_seq in Hrest. simpl in Hrest. lia. }
    intros i view Hi. apply Hall; [|done]. by apply lookup_lt_Some in Hi.
  - done.
  - done.
Qed.

Lemma two_call_fill_all {A} (available buffer : list A) :
  length buffer = length available →
  two_call available (Some (Z.of_nat (length available), buffer))
    = (Z.of_nat (length available), available).
Proof.
  intros Hb. simpl. rewrite Nat2Z.id, Nat.min_id, firstn_all.
  rewrite drop_ge by lia. by rewrite app_nil_r.
Qed.

(** [QuerySwapChainSupport] always finishes; it makes no creation call; the
    capabilities are the platform's at the time of the first call; and the
    format vector is empty exactly when the count probe reported zero. *)
Lemma QuerySwapChainSupport_run device surface w :
  ∃ details w',
    QuerySwapChainSupport pf device surface w = Done details w' ∧
    capabilities details = p_capabilities pf (now w) ∧
    (formats details = [] ↔ p_formats pf (S (now w)) = []) ∧
    w_next w' = w_next w ∧ w_chains w' = w_chains w ∧
    (∃ calls, w' = extend w calls ∧ Forall (λ e, is_create e = false) calls).
Proof.
  unfold QuerySwapChainSupport, mbind, M_bind. simpl.
  rewrite !now_emit.
  set (fs := p_formats pf (S (now w))).
  assert (Hfs : Z.of_nat (length fs) ≠ 0 ↔ fs ≠ []).
  { destruct fs; simpl; [done|]. split; [done|lia]. }
  destruct (bool_decide_reflect (Z.of_nat (length fs) ≠ 0)) as [Hf|Hf]; simpl.
  - assert (Hdata : take (Nat.min (Z.to_nat (Z.of_nat (length fs)))
                                (length (p_formats pf (S (S (now w))))))
                         (p_formats pf (S (S (now w)))) ++
                    drop (Nat.min (Z.to_nat (Z.of_nat (length fs)))
                                (length (p_formats pf (S (S (now w))))))
                         (resize (Z.to_nat (Z.of_nat (length fs)))
                                 {| format := 0; colorSpace := 0 |} []) ≠ []).
    { intros Hnil. apply (f_equal length) in Hnil.
      rewrite length_app, length_take, length_drop, length_resize in Hnil.
      simpl in Hnil. destruct fs; simpl in *; [done|lia]. }
    rewrite !now_emit.
    destruct (bool_decide (Z.of_nat (length (p_presentModes pf _)) ≠ 0)); simpl;
      eexists _, _; (split; [reflexivity|]); simpl;
      (split; [done|]); (split; [split; intros; [done|by apply Hfs in Hf]|]);
      (split; [done|]); (split; [done|]).
    + eexists [_; _; _; _; _].
      split; [unfold extend, emit; simpl; by rewrite <- !app_assoc|].
      by repeat constructor.
    + eexists [_; _; _; _].
      split; [unfold extend, emit; simpl; by rewrite <- !app_assoc|].
      by repeat constructor.
  - assert (Hnil : fs = []) by (destruct fs; [done|exfalso; apply Hf; simpl; lia]).
    rewrite !now_emit.
    destruct (bool_decide (Z.of_nat (length (p_presentModes pf _)) ≠ 0)); simpl;
      eexists _, _; (split; [reflexivity|]); simpl;
      (split; [done|]); (split; [done|]);
      (split; [done|]); (split; [done|]).
    + eexists [_; _; _; _].
      split; [unfold extend, emit; simpl; by rewrite <- !app_assoc|].
      by repeat constructor.
    + eexists [_; _; _].
      split; [unfold extend, emit; simpl; by rewrite <- !app_assoc|].
      by repeat constructor.
Qed.


Lemma ChooseSwapSurfaceFormat_None (fs : list VkSurfaceFormatKHR) :
  ChooseSwapSurfaceFormat fs = None ↔ fs = [].
Proof.
  split; [|by intros ->].
  destruct fs as [|f fs]; [done|]. unfold ChooseSwapSurfaceFormat.
  destruct (_ && _); [done|].
  by destruct (ChooseSwapSurfaceFormat_scan (f :: fs)).
Qed.

Lemma ok_extend_quiet w calls :
  Forall (λ e, is_create e = false) calls → ok w (extend w calls).
Proof.
  intros Hall. exists calls. split; [done|].
  revert Hall. apply List.Forall_impl. intros e He.
  unfold checked_event. by rewrite He.
Qed.

Lemma ChooseSwapExtent_run caps window w :
  ∃ extent w',
    ChooseSwapExtent pf caps window w = Done extent w' ∧
    ok w w' ∧ w_chains w' = w_chains w ∧ w_next w' = w_next w.
Proof.
  unfold ChooseSwapExtent. case_bool_decide.
  - eexists _, _. split; [done|]. split; [apply ok_refl|done].
  - unfold mbind, M_bind. simpl. destruct (p_windowSize pf (now w)) as [ww wh].
    eexists _, _. split; [done|]. split; [|done].
    apply ok_emit; [apply ok_refl|done].
Qed.

Lemma vkCreateSwapchainKHR_run device createInfo w :
  ∃ r chain w',
    vkCreateSwapchainKHR pf device createInfo w = Done (r, chain) w' ∧
    w_trace w' = w_trace w ++ [Call_vkCreateSwapchainKHR device createInfo r chain] ∧
    pending pf w r w' ∧
    (r = VK_SUCCESS →
     chain_images w' chain =
       fresh_handles (N.succ chain)
         (p_imageCount pf (now w) (sci_minImageCount createInfo))).
Proof.
  unfold vkCreateSwapchainKHR.
  destruct (bool_decide_reflect (p_result pf (now w) = VK_SUCCESS)) as [Hr|Hr].
  - eexists _, _, _. split; [done|]. split; [done|]. split.
    + split; [|done]. intros _. eapply ok_step; [apply ok_refl|done|].
      intros _. simpl. by rewrite Hr.
    + intros _. unfold chain_images. simpl. by rewrite bool_decide_eq_true_2.
  - eexists _, _, _. split; [done|]. split; [done|]. split; [|done].
    split; [done|]. intros _. split; [done|]. split; [by exists (now w)|].
    by exists [], (Call_vkCreateSwapchainKHR device createInfo
                     (p_result pf (now w)) VK_NULL_HANDLE).
Qed.

Lemma wrap32_nonneg z : 0 ≤ wrap32 z.
Proof. unfold wrap32. apply Z.mod_pos_bound. lia. Qed.

(** Lines 64-67 of [Create] from [w]: the two image queries are made, the
    second with the shape [image_request] gives; the vector ends as long as
    the platform's list unless the probe returned an error code, and is that
    list unless one of the two calls did. *)
Lemma Create_images_run device imageCount this w :
  ∃ images,
    Create_images pf device imageCount this w =
      Done (set_images images this)
        (emit (Call_vkGetSwapchainImagesKHR device (m_swapChain this)
                 (image_request (p_nullData pf (S (now w))) (length images))
                 (p_result pf (S (now w))))
           (emit (Call_vkGetSwapchainImagesKHR device (m_swapChain this) None
                    (p_result pf (now w))) w)) ∧
    (is_error (p_result pf (now w)) = false →
     length images = length (chain_images w (m_swapChain this))) ∧
    (is_error (p_result pf (now w)) = false →
     is_error (p_result pf (S (now w))) = false →
     images = chain_images w (m_swapChain this)) ∧
    (is_error (p_result pf (now w)) = true →
     length images = Z.to_nat (wrap32 (p_errorCount pf (now w) imageCount))).
Proof.
  unfold Create_images, vkGetSwapchainImagesKHR, vector_data, mbind, M_bind, mret,
    M_ret.
  set (avail := chain_images w (m_swapChain this)).
  set (r1 := p_result pf (now w)).
  set (count1 := if is_error r1 then wrap32 (p_errorCount pf (now w) imageCount)
                 else Z.of_nat (length avail)).
  assert (Hcount1 : 0 ≤ count1).
  { unfold count1. destruct (is_error r1); [apply wrap32_nonneg|lia]. }
  set (buffer := @resize VkImage (Z.to_nat count1) VK_NULL_HANDLE
                   (m_swapChainImages this)).
  assert (Hbuffer : @length VkImage buffer = Z.to_nat count1)
    by apply length_resize.
  assert (Hprobe :
    (let '(count, data) :=
       if is_error r1
       then (wrap32 (p_errorCount pf (now w) imageCount),
             imap (p_errorImage pf (now w)) (default [] (@None (list VkImage))))
       else two_call avail None in
     Done (r1, count, data)
       (emit (Call_vkGetSwapchainImagesKHR device (m_swapChain this)
                (request_shape (@None (Z * list VkImage))) r1) w)) =
    Done (r1, count1, [])
       (emit (Call_vkGetSwapchainImagesKHR device (m_swapChain this) None r1) w)).
  { unfold count1. by destruct (is_error r1). }
  rewrite Hprobe. clear Hprobe.
  cbn [set_images m_swapChainImages m_swapChain].
  change (resize _ _ _) with buffer.
  rewrite !now_emit.
  change (chain_images (emit _ w) (m_swapChain this)) with avail.
  set (r2 := p_result pf (S (now w))).
  set (null := p_nullData pf (S (now w))).
  assert (Hshape : ∀ images : list VkImage, length images = Z.to_nat count1 →
            images ≠ [] ∨ null = false →
            Some (count1, length images) = image_request null (length images)).
  { intros images Hlen Hnn. unfold image_request. rewrite Hlen, Z2Nat.id by done.
    destruct Hnn as [Hne| ->]; [|done].
    rewrite (bool_decide_eq_false_2 (Z.to_nat count1 = 0%nat)), andb_false_r; [done|].
    rewrite <- Hlen. by destruct images. }
  assert (Hfill : is_error r1 = false →
            two_call avail (Some (count1, buffer)) = (count1, avail)).
  { intros Hr1. unfold count1 in *. rewrite Hr1 in *.
    apply two_call_fill_all. by rewrite Hbuffer, Nat2Z.id. }
  assert (Hlen2 : ∀ count (data : list VkImage),
            two_call avail (Some (count1, buffer)) = (count, data) →
            length data = Z.to_nat count1).
  { intros count data [= _ <-]. rewrite length_app, length_take, length_drop.
    lia. }
  assert (Hcases : ∀ images : list VkImage, length images = Z.to_nat count1 →
            (is_error r1 = false → length images = length avail) ∧
            (is_error r1 = true →
             length images = Z.to_nat (wrap32 (p_errorCount pf (now w) imageCount)))).
  { intros images ->. unfold count1.
    split; intros ->; [by rewrite Nat2Z.id|done]. }
  set (pointer := @data_pointer VkImage null buffer).
  assert (Hpointer : pointer = None ∧ buffer = [] ∧ null = true ∨
                     pointer = Some buffer ∧ (buffer ≠ [] ∨ null = false)).
  { unfold pointer. destruct buffer as [|image buffer'];
      [destruct null|]; auto. }
  clearbody pointer.
  destruct Hpointer as [(-> & Hnil & Hnull)|(-> & Hnn)].
  - exists []. rewrite Hnil in *.
    cbn [default from_option id imap request_shape two_call length].
    destruct (Hcases [] Hbuffer) as [Hok Herr].
    assert (Hprobed : is_error r1 = false → [] = avail).
    { intros Hr1. specialize (Hok Hr1). symmetry. by apply nil_length_inv. }
    rewrite Hnull. split; [by destruct (is_error r2)|].
    split; [exact Hok|]. split; [|exact Herr]. intros Hr1 _. by apply Hprobed.
  - cbn [default from_option id request_shape].
    destruct (is_error r2) eqn:Hr2.
    + exists (imap (p_errorImage pf (S (now w))) buffer).
      assert (Hlen : length (imap (p_errorImage pf (S (now w))) buffer)
                     = Z.to_nat count1) by (by rewrite length_imap).
      destruct (Hcases _ Hlen) as [Hok Herr].
      assert (Hreq : Some (count1, @length VkImage buffer) =
                image_request null (length (imap (p_errorImage pf (S (now w))) buffer))).
      { rewrite <- Hshape;
          [do 2 f_equal; exact (eq_trans Hbuffer (eq_sym Hlen))|done|].
        destruct Hnn as [Hne|]; [left|by right].
        intros Hnil. apply Hne. apply nil_length_inv.
        by rewrite <- (length_imap (p_errorImage pf (S (now w)))), Hnil. }
      rewrite Hreq. split; [done|]. split; [exact Hok|]. split; [done|exact Herr].
    + destruct (@two_call VkImage avail (Some (count1, buffer)))
        as [count data] eqn:Htwo.
      exists data.
      pose proof (Hlen2 _ _ eq_refl) as Hlen.
      destruct (Hcases _ Hlen) as [Hok Herr].
      assert (Hreq : Some (count1, @length VkImage buffer) = image_request null (length data)).
      { rewrite <- Hshape;
          [do 2 f_equal; exact (eq_trans Hbuffer (eq_sym Hlen))|done|].
        destruct Hnn as [Hne|]; [left|by right].
        intros ->. apply Hne. apply nil_length_inv.
        exact (eq_trans Hbuffer (eq_sym Hlen)). }
      rewrite Hreq. split; [done|]. split; [exact Hok|]. split; [|exact Herr].
      intros Hr1 _. specialize (Hfill Hr1). congruence.
Qed.

Lemma length_fresh_handles first n : length (fresh_handles first n) = n.
Proof. unfold fresh_handles. by rewrite length_fmap, length_seq. Qed.

(** [Create] from [w].  When it finishes: every creation it made succeeded,
    the views are aligned with the images, the framebuffer vector is the
    old one, and the chain creation was followed by the two image queries;
    the image vector is as long as the image list of the chain the platform
    created in this call unless the probe returned an error code, and is
    that list unless one of the two queries did.  When it is terminated, a
    creation failed.  It reads out of bounds only when the format count
    probe reported zero. *)
Lemma Create_post logicalDevice physicalDevice surface window this w :
  post (Create pf logicalDevice physicalDevice surface window this) w
    (λ this' w',
       ok w w' ∧ views_aligned this' w' ∧
       m_swapChainFramebuffers this' = m_swapChainFramebuffers this ∧
       ∃ before after createInfo r1 r2,
         w_trace w' =
           before ++
           Call_vkCreateSwapchainKHR logicalDevice createInfo VK_SUCCESS
             (m_swapChain this') ::
           Call_vkGetSwapchainImagesKHR logicalDevice (m_swapChain this') None r1 ::
           Call_vkGetSwapchainImagesKHR logicalDevice (m_swapChain this')
             (image_request (p_nullData pf (S (S (length before))))
                (length (m_swapChainImages this'))) r2 ::
           after ∧
         w_trace w `prefix_of` before ∧
         sci_minImageCount createInfo = Create_imageCount (p_capabilities pf (now w)) ∧
         length (chain_images w' (m_swapChain this')) =
           p_imageCount pf (length before) (sci_minImageCount createInfo) ∧
         (is_error r1 = false →
          length (m_swapChainImages this') =
            length (chain_images w' (m_swapChain this'))) ∧
         (is_error r1 = false → is_error r2 = false →
          m_swapChainImages this' = chain_images w' (m_swapChain this')) ∧
         (is_error r1 = true →
          length (m_swapChainImages this') =
            Z.to_nat (wrap32 (p_errorCount pf (S (length before))
                                (sci_minImageCount createInfo)))))
    (bad pf w)
    (λ _, p_formats pf (S (now w)) = []).
Proof.
  unfold Create.
  destruct (QuerySwapChainSupport_run physicalDevice surface w)
    as (details & w1 & HQ & Hcaps & Hfmt & Hn1 & Hc1 & calls1 & Hw1 & Hall1).
  assert (Hok1 : ok w w1) by (rewrite Hw1; by apply ok_extend_quiet).
  eapply post_bind_Done; [done|].
  destruct (ChooseSwapSurfaceFormat (formats details)) as [surfaceFormat|] eqn:Hsf;
    cycle 1.
  { apply ChooseSwapSurfaceFormat_None in Hsf. unfold post. simpl. by apply Hfmt. }
  eapply post_bind_Done; [done|].
  destruct (ChooseSwapExtent_run (capabilities details) window w1)
    as (extent & w2 & HE & Hok2 & Hc2 & Hn2).
  eapply post_bind_Done; [done|].
  set (createInfo := swapchainCreateInfo _ _ _ _ _ _).
  destruct (vkCreateSwapchainKHR_run logicalDevice createInfo w2)
    as (r & chain & w3 & HC & Htr3 & Hpend & Himgs).
  assert (Hok02 : ok w w2) by (by eapply ok_trans).
  eapply post_bind_Done; [done|]. simpl.
  eapply post_bind; [apply (pending_ErrorCheck pf w); by eapply pending_trans|].
  intros _ w3' (-> & -> & Hok3). specialize (Himgs eq_refl).
  set (this3 := set_swapChain chain _).
  destruct (Create_images_run logicalDevice (Create_imageCount (capabilities details))
              this3 w3) as (images & Hrun & Hlen & Heq & Herr).
  eapply post_bind_Done; [exact Hrun|].
  cbv beta iota.
  set (w5 := emit _ (emit _ w3)) in *.
  assert (Hok5 : ok w w5).
  { unfold w5. by repeat apply ok_emit. }
  assert (Hnow3 : now w3 = S (length (w_trace w2))).
  { unfold now. rewrite Htr3, length_app. simpl. lia. }
  eapply post_mono; [apply CreateImageViews_post| | |done].
  - intros this' w' (Hok' & Hch' & Hthis' & Hal).
    split; [by eapply ok_trans|]. split; [done|].
    rewrite Hthis'. simpl. split; [done|].
    assert (Hci : chain_images w' chain = chain_images w3 chain).
    { unfold chain_images. by rewrite Hch'. }
    destruct Hok' as (calls' & Htr' & _).
    exists (w_trace w2), calls', createInfo,
      (p_result pf (now w3)), (p_result pf (S (now w3))).
    split.
    { rewrite Htr'. unfold w5. simpl. rewrite Htr3, <- Hnow3.
      by rewrite <- !app_assoc. }
    split; [by apply ok_prefix|].
    split; [unfold createInfo; simpl; by rewrite Hcaps|].
    rewrite Hci. split; [by rewrite Himgs, length_fresh_handles|].
    split; [exact Hlen|]. split; [exact Heq|].
    rewrite <- Hnow3. exact Herr.
  - intros r w' Hbad. by eapply bad_trans.
Qed.


(** *** What creation guarantees *)

Lemma post_creations_checked {A} (m : M A) (Q : World → A → World → Prop)
  (U : World → World → Prop) :
  (∀ w, post m w (λ a w', ok w w' ∧ Q w a w') (bad pf w) (U w)) →
  creations_checked m.
Proof.
  intros Hpost w. specialize (Hpost w). unfold post in Hpost.
  destruct (m w) as [a w'|r w'|w']; [|by eapply bad_new_events|done].
  destruct Hpost as [Hok _]. by apply ok_new_events.
Qed.

(** C8, amended: the result code of each of the three creation calls
    ([vkCreateSwapchainKHR], [vkCreateImageView], [vkCreateFramebuffer]) is
    routed through the error check.  A run of [Create], [CreateImageViews]
    or [CreateFramebuffers] that finishes normally saw [VK_SUCCESS] from
    every creation call it made; a run that is terminated stopped right
    after a creation call that returned a non-success code, and reports
    that code. *)
Theorem creation_calls_checked (this : Swapchain) :
  (∀ d p s win, creations_checked (Create pf d p s win this)) ∧
  (∀ d rp, creations_checked (CreateFramebuffers pf d rp this)) ∧
  (∀ d, creations_checked (CreateImageViews pf d this)).
Proof.
  split; [|split].
  - intros d p s win.
    eapply (post_creations_checked _ _ (λ w _, p_formats pf (S (now w)) = [])).
    intros w. apply Create_post.
  - intros d rp. eapply (post_creations_checked _ _ (λ _ _, False)).
    intros w. apply CreateFramebuffers_post.
  - intros d. eapply (post_creations_checked _ _ (λ _ _, False)).
    intros w. apply CreateImageViews_post.
Qed.

(** C5, amended: when the width of [currentExtent] is not the maximum
    [uint32_t] value, [ChooseSwapExtent] returns [currentExtent] itself,
    whatever the window size is (the window is not even asked).  Otherwise
    it asks the window for its size and returns, on each axis separately,
    the dimension converted to [uint32_t] (a negative [int] [d] becomes
    [d + 2^32]) and then clamped into [minImageExtent, maxImageExtent]: for
    an interval with min ≤ max the result is the clamp of the converted
    dimension and lies in the interval, and it is the clamp of the
    dimension itself when that is a non-negative [int]; for an interval
    given with max < min the result is min. *)
Theorem ChooseSwapExtent_spec (caps : VkSurfaceCapabilitiesKHR)
  (window : GLFWwindow) (w : World) :
  (width (currentExtent caps) ≠ UINT32_MAX →
   ChooseSwapExtent pf caps window w = Done (currentExtent caps) w) ∧
  (width (currentExtent caps) = UINT32_MAX →
   ∃ extent,
     ChooseSwapExtent pf caps window w =
       Done extent (emit (Call_glfwGetWindowSize window) w) ∧
     (width (minImageExtent caps) ≤ width (maxImageExtent caps) →
      width extent =
        clamp_reference (width (minImageExtent caps)) (width (maxImageExtent caps))
                        (static_cast_uint32 (p_windowSize pf (now w)).1) ∧
      width (minImageExtent caps) ≤ width extent ≤ width (maxImageExtent caps) ∧
      (0 ≤ (p_windowSize pf (now w)).1 ≤ INT_MAX →
       width extent =
         clamp_reference (width (minImageExtent caps)) (width (maxImageExtent caps))
                         (p_windowSize pf (now w)).1)) ∧
     (height (minImageExtent caps) ≤ height (maxImageExtent caps) →
      height extent =
        clamp_reference (height (minImageExtent caps)) (height (maxImageExtent caps))
                        (static_cast_uint32 (p_windowSize pf (now w)).2) ∧
      height (minImageExtent caps) ≤ height extent ≤ height (maxImageExtent caps) ∧
      (0 ≤ (p_windowSize pf (now w)).2 ≤ INT_MAX →
       height extent =
         clamp_reference (height (minImageExtent caps)) (height (maxImageExtent caps))
                         (p_windowSize pf (now w)).2)) ∧
     (width (maxImageExtent caps) < width (minImageExtent caps) →
      width extent = width (minImageExtent caps)) ∧
     (height (maxImageExtent caps) < height (minImageExtent caps) →
      height extent = height (minImageExtent caps)) ∧
     (∀ d, - INT_MAX - 1 ≤ d ≤ INT_MAX →
           static_cast_uint32 d = if bool_decide (d < 0) then d + 2 ^ 32 else d)).
Proof.
  unfold ChooseSwapExtent. split; intros Hw.
  - by rewrite bool_decide_eq_true_2.
  - rewrite bool_decide_eq_false_2 by (intros Hne; by apply Hne).
    unfold mbind, M_bind. simpl.
    destruct (p_windowSize pf (now w)) as [ww wh]. simpl.
    eexists. split; [done|]. simpl.
    split; [|split; [|split; [|split]]].
    + intros Hlh.
      destruct (ChooseSwapExtent_axis_cast (width (minImageExtent caps))
                  (width (maxImageExtent caps)) ww) as [Hcast _].
      destruct (Hcast Hlh) as [Heq Hin].
      split; [exact Heq|]. split; [exact Hin|].
      intros Hv. by apply ChooseSwapExtent_axis_clamp.
    + intros Hlh.
      destruct (ChooseSwapExtent_axis_cast (height (minImageExtent caps))
                  (height (maxImageExtent caps)) wh) as [Hcast _].
      destruct (Hcast Hlh) as [Heq Hin].
      split; [exact Heq|]. split; [exact Hin|].
      intros Hv. by apply ChooseSwapExtent_axis_clamp.
    + apply ChooseSwapExtent_axis_cast.
    + apply ChooseSwapExtent_axis_cast.
    + apply static_cast_uint32_int.
Qed.

(** C7, amended: when [Create] finishes, the chain creation succeeded and
    was followed by the count probe of [vkGetSwapchainImagesKHR] on the new
    chain and then by a second query, made with the count the probe left
    and the vector resized to that count: a filling call, or a second count
    probe when the vector is empty and its [data()] is null.  Neither result
    code is checked.  Unless the probe returned an error code, the stored
    image vector is as long as the image list the platform holds for that
    chain, whatever count was asked for; unless one of the two queries
    returned an error code, it is exactly that list.  After a probe that
    returned an error code, its length is what the failed call left in the
    count, which held the requested count. *)
Theorem Create_stores_platform_images logicalDevice physicalDevice surface window
  (this : Swapchain) (w : World) (this' : Swapchain) (w' : World) :
  Create pf logicalDevice physicalDevice surface window this w = Done this' w' →
  ∃ before after createInfo r1 r2,
    w_trace w' =
      before ++
      Call_vkCreateSwapchainKHR logicalDevice createInfo VK_SUCCESS
        (m_swapChain this') ::
      Call_vkGetSwapchainImagesKHR logicalDevice (m_swapChain this') None r1 ::
      Call_vkGetSwapchainImagesKHR logicalDevice (m_swapChain this')
        (image_request (p_nullData pf (S (S (length before))))
           (length (m_swapChainImages this'))) r2 ::
      after ∧
    w_trace w `prefix_of` before ∧
    sci_minImageCount createInfo = Create_imageCount (p_capabilities pf (now w)) ∧
    length (chain_images w' (m_swapChain this')) =
      p_imageCount pf (length before) (sci_minImageCount createInfo) ∧
    (is_error r1 = false →
     length (m_swapChainImages this') =
       length (chain_images w' (m_swapChain this'))) ∧
    (is_error r1 = false → is_error r2 = false →
     m_swapChainImages this' = chain_images w' (m_swapChain this')) ∧
    (is_error r1 = true →
     length (m_swapChainImages this') =
       Z.to_nat (wrap32 (p_errorCount pf (S (length before))
                           (sci_minImageCount createInfo)))).
Proof.
  intros Hrun.
  pose proof (post_Done _ _ _ _ _ _ _
                (Create_post logicalDevice physicalDevice surface window this w) Hrun)
    as (_ & _ & _ & Hev).
  exact Hev.
Qed.

(** C9: [ChooseSwapSurfaceFormat] reads element 0 of an empty vector exactly
    when it is given the empty sequence, so on every non-empty sequence it
    returns a format.  [QuerySwapChainSupport] does produce the empty
    sequence: a count probe that reports zero formats leaves the vector
    empty, and [Create] then performs the out-of-bounds read. *)
Theorem ChooseSwapSurfaceFormat_partial :
  (∀ fs, ChooseSwapSurfaceFormat fs = None ↔ fs = []) ∧
  (∀ device surface w,
     p_formats pf (S (now w)) = [] →
     ∃ details w',
       QuerySwapChainSupport pf device surface w = Done details w' ∧
       formats details = []) ∧
  (∀ logicalDevice physicalDevice surface window this w,
     p_formats pf (S (now w)) = [] →
     ∃ w', Create pf logicalDevice physicalDevice surface window this w
           = Undefined w').
Proof.
  split; [apply ChooseSwapSurfaceFormat_None|]. split.
  - intros device surface w Hnil.
    destruct (QuerySwapChainSupport_run device surface w)
      as (details & w' & HQ & _ & Hfmt & _).
    exists details, w'. split; [done|]. by apply Hfmt.
  - intros logicalDevice physicalDevice surface window this w Hnil.
    destruct (QuerySwapChainSupport_run physicalDevice surface w)
      as (details & w' & HQ & _ & Hfmt & _).
    exists w'. unfold Create, mbind, M_bind. rewrite HQ.
    apply Hfmt in Hnil. by rewrite Hnil.
Qed.

Lemma run_snoc ops op this w :
  run pf (ops ++ [op]) this w = (run pf ops this ≫= step pf op) w.
Proof.
  revert this w. induction ops as [|op' ops IH]; intros this w; simpl.
  - unfold mbind, M_bind, mret, M_ret. by destruct (step pf op this w).
  - unfold mbind, M_bind. destruct (step pf op' this w) as [this1 w1| |]; [|done..].
    apply IH.
Qed.

(** C2, amended: in every state reached from a fresh object by [Create] and
    [CreateFramebuffers] calls that all finished, the view vector is as long
    as the image vector and view [i] was created from image [i] with the
    stored format; and when [CreateFramebuffers] was the latest of these
    calls, the framebuffer vector is as long as the image vector and
    framebuffer [i] was created with view [i] as its only attachment. *)
Theorem index_alignment (ops : list Op) (w0 : World) (this : Swapchain) (w : World) :
  run pf ops Swapchain_new w0 = Done this w →
  views_aligned this w ∧
  (framebuffers_current ops = true → framebuffers_aligned this w).
Proof.
  revert this w. induction ops as [|op ops IH] using rev_ind; intros this w Hrun.
  - injection Hrun as <- <-. split; [|done]. split; [done|]. intros i image Hi.
    simpl in Hi. by rewrite lookup_nil in Hi.
  - rewrite run_snoc in Hrun. unfold mbind, M_bind in Hrun.
    destruct (run pf ops Swapchain_new w0) as [this1 w1| |] eqn:Hrun1; [|done..].
    destruct (IH this1 w1 eq_refl) as [Hva1 _].
    unfold framebuffers_current. rewrite last_snoc.
    destruct op as [d p s win|d rp]; simpl in *.
    + pose proof (post_Done _ _ _ _ _ _ _ (Create_post d p s win this1 w1) Hrun)
        as (_ & Hva & _).
      by split.
    + pose proof (post_Done _ _ _ _ _ _ _ (CreateFramebuffers_post d rp this1 w1) Hrun)
        as (Hok & _ & Hthis & Hlen & Hfb).
      assert (Hva : views_aligned this w).
      { apply (views_aligned_mono this w1 w); [by apply ok_prefix|].
        rewrite Hthis. exact Hva1. }
      split; [done|]. intros _.
      destruct Hva1 as [Hlen1 Hall1]. split.
      * rewrite Hlen, Hlen1. by rewrite Hthis.
      * intros i image Hi. rewrite Hthis in Hi. simpl in Hi.
        destruct (Hall1 i image Hi) as (view & Hv & _).
        destruct (Hfb i view Hv) as (fb & Hf & Hc).
        exists view, fb. split; [by rewrite Hthis|]. done.
Qed.

(** On a platform whose calls all succeed, [CreateFramebuffers] finishes,
    and [Create] finishes as soon as the surface reports a format. *)
Lemma CreateFramebuffers_finishes logicalDevice renderPass this w :
  (∀ t, p_result pf t = VK_SUCCESS) →
  ∃ this' w', CreateFramebuffers pf logicalDevice renderPass this w = Done this' w'.
Proof.
  intros Hall. pose proof (CreateFramebuffers_post logicalDevice renderPass this w) as H.
  unfold post in H.
  destruct (CreateFramebuffers pf logicalDevice renderPass this w)
    as [this' w'|r w'|w']; [by eauto| |done].
  destruct H as (Hr & [t Ht] & _). rewrite Hall in Ht. congruence.
Qed.

Lemma Create_finishes logicalDevice physicalDevice surface window this w :
  (∀ t, p_result pf t = VK_SUCCESS) →
  p_formats pf (S (now w)) ≠ [] →
  ∃ this' w',
    Create pf logicalDevice physicalDevice surface window this w = Done this' w'.
Proof.
  intros Hall Hfs.
  pose proof (Create_post logicalDevice physicalDevice surface window this w) as H.
  unfold post in H.
  destruct (Create pf logicalDevice physicalDevice surface window this w)
    as [this' w'|r w'|w']; [by eauto| |done].
  destruct H as (Hr & [t Ht] & _). rewrite Hall in Ht. congruence.
Qed.

End Runs.

(** ** Concrete runs *)

(** The end-to-end scenario of the specification: minImageCount 2, no
    maximum, current extent 1920x1080, one format (BGRA8, sRGB), present
    modes FIFO and MAILBOX. *)
Example end_to_end_scenario :
  ∃ this w,
    Create desktop 7%N 8%N 9%N 10%N Swapchain_new world0 = Done this w ∧
    w_trace w !! 5%nat =
      Some (Call_vkCreateSwapchainKHR 7%N
              (swapchainCreateInfo 9%N 3 preferredFormat
                 {| width := 1920; height := 1080 |} 1 VK_PRESENT_MODE_MAILBOX_KHR)
              VK_SUCCESS (m_swapChain this)) ∧
    length (m_swapChainImages this) = 3%nat ∧
    m_swapChainImageFormat this = VK_FORMAT_B8G8R8A8_UNORM ∧
    m_swapChainExtent this = {| width := 1920; height := 1080 |}.
Proof.
  eexists _, _. split; [vm_compute; reflexivity|]. by vm_compute.
Qed.

Lemma ChooseSwapExtent_spec_witness :
  ∃ extent,
    ChooseSwapExtent wayland (p_capabilities wayland 0) 10%N world0 =
      Done extent (emit (Call_glfwGetWindowSize 10%N) world0) ∧
    width extent = 4096 ∧ height extent = 600.
Proof.
  destruct (ChooseSwapExtent_spec wayland (p_capabilities wayland 0) 10%N world0)
    as [_ Hclamp].
  destruct (Hclamp eq_refl) as (extent & Hrun & Hwidth & Hheight & _).
  exists extent. split; [exact Hrun|]. split.
  - destruct Hwidth as (_ & _ & Hw); [simpl; lia|].
    apply Hw. simpl. unfold INT_MAX. lia.
  - destruct Hheight as (_ & _ & Hh); [simpl; lia|].
    apply Hh. simpl. unfold INT_MAX. lia.
Defined.

(** C5, as stated, fails for a window that reports a negative size: the
    width -1 is converted to 4294967295 before it is clamped, so the code
    returns the maximum width 4096 where clamping -1 into [1, 4096] gives
    1. *)
Lemma extent_claim_fails :
  (∃ extent w',
     ChooseSwapExtent inverted (p_capabilities inverted 0) 10%N world0 =
       Done extent w' ∧
     width extent = 4096 ∧
     clamp_reference 1 4096 (p_windowSize inverted 0).1 = 1) ∧
  ¬ extent_claim inverted.
Proof.
  split; [eexists _, _; split; [vm_compute; reflexivity|]; by vm_compute|].
  intros Hclaim.
  specialize (Hclaim (p_capabilities inverted 0) 10%N world0 _ _ eq_refl)
    as [Hwidth _].
  vm_compute in Hwidth. discriminate Hwidth.
Qed.

(** The platform allocates five images where three were asked for, and five
    are stored. *)
Lemma Create_stores_platform_images_witness :
  ∃ this w,
    Create generous 7%N 8%N 9%N 10%N Swapchain_new world0 = Done this w ∧
    Create_imageCount (p_capabilities generous 0) = 3 ∧
    length (m_swapChainImages this) = 5%nat ∧
    ∃ before after createInfo r1 r2,
      w_trace w =
        before ++
        Call_vkCreateSwapchainKHR 7%N createInfo VK_SUCCESS (m_swapChain this) ::
        Call_vkGetSwapchainImagesKHR 7%N (m_swapChain this) None r1 ::
        Call_vkGetSwapchainImagesKHR 7%N (m_swapChain this)
          (image_request (p_nullData generous (S (S (length before))))
             (length (m_swapChainImages this))) r2 ::
        after ∧
      (is_error r1 = false → is_error r2 = false →
       m_swapChainImages this = chain_images w (m_swapChain this)).
Proof.
  eexists _, _. split; [vm_compute; reflexivity|].
  split; [reflexivity|]. split; [reflexivity|].
  destruct (Create_stores_platform_images generous 7%N 8%N 9%N 10%N Swapchain_new
              world0 _ _ ltac:(vm_compute; reflexivity))
    as (before & after & createInfo & r1 & r2 & Htr & _ & _ & _ & _ & Heq & _).
  exists before, after, createInfo, r1, r2. split; [exact Htr|exact Heq].
Defined.

(** C7, as stated, fails when the count probe itself fails: its result is
    not checked, the failed call leaves the requested count 3 in
    [imageCount], the vector is resized to 3 and the second query fills 3
    slots, while the platform holds 5 images for the chain. *)
Lemma stored_count_claim_fails :
  (∃ this w,
     Create exhausted 7%N 8%N 9%N 10%N Swapchain_new world0 = Done this w ∧
     length (m_swapChainImages this) = 3%nat ∧
     length (chain_images w (m_swapChain this)) = 5%nat ∧
     w_trace w !! 6%nat =
       Some (Call_vkGetSwapchainImagesKHR 7%N 1%N None VK_ERROR_OUT_OF_HOST_MEMORY) ∧
     w_trace w !! 7%nat =
       Some (Call_vkGetSwapchainImagesKHR 7%N 1%N (Some (3, 3%nat)) VK_INCOMPLETE)) ∧
  ¬ stored_count_claim exhausted.
Proof.
  split; [eexists _, _; split; [vm_compute; reflexivity|]; by vm_compute|].
  intros Hclaim.
  destruct (Create exhausted 7%N 8%N 9%N 10%N Swapchain_new world0)
    as [this w| |] eqn:Hrun; [|vm_compute in Hrun; discriminate..].
  specialize (Hclaim _ _ _ _ _ _ _ _ Hrun).
  vm_compute in Hrun. injection Hrun as <- <-.
  vm_compute in Hclaim. discriminate Hclaim.
Qed.

(** On a platform whose chains have no images, a fresh object's vector
    stays unallocated, [data()] is null, and the second image query is a
    second count probe. *)
Example Create_probes_twice_without_images :
  ∃ this w,
    Create imageless 7%N 8%N 9%N 10%N Swapchain_new world0 = Done this w ∧
    m_swapChainImages this = [] ∧
    drop 6 (w_trace w) =
      [ Call_vkGetSwapchainImagesKHR 7%N 1%N None VK_SUCCESS;
        Call_vkGetSwapchainImagesKHR 7%N 1%N None VK_SUCCESS ].
Proof. eexists _, _. split; [vm_compute; reflexivity|]. by vm_compute. Qed.

Lemma ChooseSwapSurfaceFormat_partial_witness :
  ChooseSwapSurfaceFormat [] = None ∧
  ∃ w', Create formatless 7%N 8%N 9%N 10%N Swapchain_new world0 = Undefined w'.
Proof.
  destruct (ChooseSwapSurfaceFormat_partial formatless) as (Hnone & _ & Hcreate).
  split.
  - apply Hnone. reflexivity.
  - apply Hcreate. reflexivity.
Defined.

Lemma index_alignment_witness :
  ∃ this w,
    run desktop [OpCreate 7 8 9 10; OpCreateFramebuffers 7 11]%N Swapchain_new world0
      = Done this w ∧
    views_aligned this w ∧ framebuffers_aligned this w.
Proof.
  eexists _, _. split; [vm_compute; reflexivity|].
  destruct (index_alignment desktop
              [OpCreate 7 8 9 10; OpCreateFramebuffers 7 11]%N world0 _ _
              ltac:(vm_compute; reflexivity)) as [Hviews Hfbs].
  split; [exact Hviews|]. apply Hfbs. reflexivity.
Defined.

(** C2, as stated, fails after a second [Create]: the views are replaced,
    the framebuffer vector is left as it was, and its entries were created
    with the old views as attachments. *)
Lemma index_alignment_claim_fails : ¬ index_alignment_claim.
Proof.
  intros Hclaim.
  destruct (run desktop
              [OpCreate 7 8 9 10; OpCreateFramebuffers 7 11; OpCreate 7 8 9 10]%N
              Swapchain_new world0) as [this w| |] eqn:Hrun;
    [|vm_compute in Hrun; discriminate..].
  destruct (Hclaim _ _ _ _ _ Hrun) as [_ Hfbs].
  destruct (Hfbs eq_refl) as [_ Hall].
  vm_compute in Hrun. injection Hrun as <- <-.
  destruct (Hall 0%nat _ eq_refl)
    as (view & fb & Hview & Hfb & device & createInfo & Hin & Hatt).
  injection Hview as <-. injection Hfb as <-.
  repeat (apply elem_of_cons in Hin as [Hin|Hin];
          [first [discriminate Hin
                 |injection Hin as _ ->; discriminate Hatt]|]).
  by apply elem_of_nil in Hin.
Qed.

(** After a second [Create] on a platform that now allocates four images,
    the stale framebuffer vector does not even have the length of the image
    vector. *)
Example stale_framebuffers_length :
  ∃ this w,
    run regrown [OpCreate 7 8 9 10; OpCreateFramebuffers 7 11; OpCreate 7 8 9 10]%N
        Swapchain_new world0 = Done this w ∧
    length (m_swapChainFramebuffers this) = 3%nat ∧
    length (m_swapChainImages this) = 4%nat ∧
    length (m_swapChainImageViews this) = 4%nat.
Proof. eexists _, _. split; [vm_compute; reflexivity|]. done. Qed.

(** C8, as stated, fails at [vkDeviceWaitIdle]: on a lost device the wait
    returns [VK_ERROR_DEVICE_LOST], and [CleanupFrameBuffers] goes on to
    destroy the framebuffers and finishes normally. *)
Lemma every_result_checked_claim_fails : ¬ every_result_checked_claim.
Proof.
  intros Hclaim.
  destruct (Hclaim device_lost built) as (_ & _ & _ & _ & _ & Hcfb).
  pose proof (Hcfb world0 _ _ (CleanupFrameBuffers_run device_lost built world0)
                (Call_vkDeviceWaitIdle 7%N VK_ERROR_DEVICE_LOST)
                VK_ERROR_DEVICE_LOST) as Habs.
  rewrite new_events_extend in Habs.
  assert (Heq : VK_ERROR_DEVICE_LOST = VK_SUCCESS);
    [apply Habs; [by left|done]|discriminate Heq].
Qed.

(** The teardown of [built] on the lost device, call by call. *)
Example teardown_on_lost_device :
  Swapchain_destructor device_lost built world0 =
    Done built
      (extend world0
         [ Call_vkDeviceWaitIdle 7%N VK_ERROR_DEVICE_LOST;
           Call_vkDestroyFramebuffer 7%N 8%N;
           Call_vkDestroyFramebuffer 7%N 9%N;
           Call_vkDestroyFramebuffer 7%N 10%N;
           Call_vkDeviceWaitIdle 7%N VK_ERROR_DEVICE_LOST;
           Call_vkDestroyImageView 7%N 5%N;
           Call_vkDestroyImageView 7%N 6%N;
           Call_vkDestroyImageView 7%N 7%N;
           Call_vkDestroySwapchainKHR 7%N 1%N ]).
Proof. by vm_compute. Qed.

(** The result of an image query is not looked at: the filling call of
    [vkGetSwapchainImagesKHR] answers [VK_INCOMPLETE] and [Create] still
    finishes. *)
Example Create_ignores_query_result :
  ∃ this w,
    Create (answering 7 VK_INCOMPLETE) 7%N 8%N 9%N 10%N Swapchain_new world0
      = Done this w ∧
    w_trace w !! 7%nat =
      Some (Call_vkGetSwapchainImagesKHR 7%N 1%N (Some (3, 3%nat)) VK_INCOMPLETE).
Proof. eexists _, _. split; [vm_compute; reflexivity|]. done. Qed.

(** A failing creation terminates the run at once: the chain creation is
    the sixth call, and nothing follows it. *)
Example Create_fails_fast :
  ∃ w,
    Create (answering 5 VK_ERROR_DEVICE_LOST) 7%N 8%N 9%N 10%N Swapchain_new world0
      = Fatal VK_ERROR_DEVICE_LOST w ∧
    length (w_trace w) = 6%nat ∧
    event_result <$> list.last (w_trace w) = Some (Some VK_ERROR_DEVICE_LOST).
Proof. eexists. split; [vm_compute; reflexivity|]. done. Qed.

(** ** More about the selection helpers *)

Lemma ChooseSwapPresentMode_scan_available (modes : list VkPresentModeKHR)
  (bestMode : VkPresentModeKHR) :
  ChooseSwapPresentMode_scan modes bestMode ∈ modes ∨
  ChooseSwapPresentMode_scan modes bestMode = bestMode.
Proof.
  revert bestMode. induction modes as [|m modes IH]; intros bestMode; simpl.
  - by right.
  - case_bool_decide; [left; by left|].
    case_bool_decide.
    + left. destruct (IH m) as [Hin| ->]; [by right|by left].
    + destruct (IH bestMode) as [Hin|Heq]; [left; by right|by right].
Qed.

(** X1: the present mode [ChooseSwapPresentMode] returns is one of the
    available modes or FIFO, so it is an available mode whenever FIFO is
    available; on a sequence without mailbox, immediate and FIFO (the empty
    one among them) it returns FIFO although the sequence does not offer
    it. *)
Theorem ChooseSwapPresentMode_available (modes : list VkPresentModeKHR) :
  (ChooseSwapPresentMode modes ∈ modes ∨
   ChooseSwapPresentMode modes = VK_PRESENT_MODE_FIFO_KHR) ∧
  (VK_PRESENT_MODE_FIFO_KHR ∈ modes → ChooseSwapPresentMode modes ∈ modes) ∧
  (VK_PRESENT_MODE_MAILBOX_KHR ∉ modes → VK_PRESENT_MODE_IMMEDIATE_KHR ∉ modes →
   VK_PRESENT_MODE_FIFO_KHR ∉ modes → ChooseSwapPresentMode modes ∉ modes).
Proof.
  unfold ChooseSwapPresentMode.
  pose proof (ChooseSwapPresentMode_scan_available modes VK_PRESENT_MODE_FIFO_KHR)
    as Hav.
  split; [done|]. split.
  - intros Hfifo. destruct Hav as [Hin| ->]; done.
  - intros Hmail Himm Hfifo.
    assert (Hres : ChooseSwapPresentMode_scan modes VK_PRESENT_MODE_FIFO_KHR
                   = VK_PRESENT_MODE_FIFO_KHR); [|by rewrite Hres].
    generalize VK_PRESENT_MODE_FIFO_KHR as bestMode.
    clear Hav Hfifo. induction modes as [|m modes IH]; intros bestMode; simpl; [done|].
    apply not_elem_of_cons in Hmail as [Hm1 Hmail].
    apply not_elem_of_cons in Himm as [Hm2 Himm].
    rewrite !bool_decide_eq_false_2 by congruence. by apply IH.
Qed.

Lemma ChooseSwapPresentMode_available_witness :
  ChooseSwapPresentMode [VK_PRESENT_MODE_FIFO_RELAXED_KHR; VK_PRESENT_MODE_FIFO_KHR]
    ∈ [VK_PRESENT_MODE_FIFO_RELAXED_KHR; VK_PRESENT_MODE_FIFO_KHR] ∧
  ChooseSwapPresentMode [VK_PRESENT_MODE_FIFO_RELAXED_KHR]
    ∉ [VK_PRESENT_MODE_FIFO_RELAXED_KHR].
Proof.
  split.
  - apply (ChooseSwapPresentMode_available
             [VK_PRESENT_MODE_FIFO_RELAXED_KHR; VK_PRESENT_MODE_FIFO_KHR]).
    right. left.
  - apply (ChooseSwapPresentMode_available [VK_PRESENT_MODE_FIFO_RELAXED_KHR]);
      intros Hin; apply list_elem_of_singleton in Hin; discriminate Hin.
Defined.




Lemma wrap32_negative (v : Z) : INT_MIN ≤ v < 0 → wrap32 v = v + 2 ^ 32.
Proof.
  unfold wrap32, INT_MIN. intros Hv.
  rewrite <- (Z.mod_add v 1 (2 ^ 32)) by lia.
  rewrite Z.mod_small; lia.
Qed.

(** ** More about the builders and the teardown *)

Section Builders.

Variable pf : Platform.

Lemma ChooseSwapExtent_axis_within (lo hi v : Z) :
  lo ≤ hi → lo ≤ ChooseSwapExtent_axis lo hi v ≤ hi.
Proof. unfold ChooseSwapExtent_axis. lia. Qed.

Lemma ChooseSwapExtent_axis_negative (lo hi v : Z) :
  lo ≤ hi → hi ≤ INT_MAX → INT_MIN ≤ v < 0 → ChooseSwapExtent_axis lo hi v = hi.
Proof.
  intros Hlh Hhi Hv. unfold ChooseSwapExtent_axis, static_cast_uint32.
  rewrite wrap32_negative by done. unfold INT_MAX, INT_MIN in *. lia.
Qed.

(** X3: when the current extent carries the sentinel width and the limits
    form an interval on both axes, the extent [ChooseSwapExtent] returns
    lies within [minImageExtent, maxImageExtent] on both axes, whatever two
    integers the window reports as its size. *)
Theorem ChooseSwapExtent_within (caps : VkSurfaceCapabilitiesKHR)
  (window : GLFWwindow) (w : World) :
  width (currentExtent caps) = UINT32_MAX →
  width (minImageExtent caps) ≤ width (maxImageExtent caps) →
  height (minImageExtent caps) ≤ height (maxImageExtent caps) →
  ∃ extent,
    ChooseSwapExtent pf caps window w =
      Done extent (emit (Call_glfwGetWindowSize window) w) ∧
    width (minImageExtent caps) ≤ width extent ≤ width (maxImageExtent caps) ∧
    height (minImageExtent caps) ≤ height extent ≤ height (maxImageExtent caps).
Proof.
  intros Hsentinel Hw Hh. unfold ChooseSwapExtent.
  rewrite bool_decide_eq_false_2 by (intros Hne; by apply Hne).
  unfold mbind, M_bind. simpl.
  destruct (p_windowSize pf (now w)) as [ww wh].
  eexists. split; [done|]. simpl.
  split; by apply ChooseSwapExtent_axis_within.
Qed.

(** X4: in the sentinel branch of [ChooseSwapExtent] a negative window
    dimension is converted to a large unsigned value, so the axis comes out
    as the maximum of the interval, not the minimum (for a maximum that
    fits a non-negative [int]). *)
Theorem ChooseSwapExtent_negative_window (caps : VkSurfaceCapabilitiesKHR)
  (window : GLFWwindow) (w : World) :
  width (currentExtent caps) = UINT32_MAX →
  ∃ extent,
    ChooseSwapExtent pf caps window w =
      Done extent (emit (Call_glfwGetWindowSize window) w) ∧
    (INT_MIN ≤ (p_windowSize pf (now w)).1 < 0 →
     width (minImageExtent caps) ≤ width (maxImageExtent caps) ≤ INT_MAX →
     width extent = width (maxImageExtent caps)) ∧
    (INT_MIN ≤ (p_windowSize pf (now w)).2 < 0 →
     height (minImageExtent caps) ≤ height (maxImageExtent caps) ≤ INT_MAX →
     height extent = height (maxImageExtent caps)).
Proof.
  intros Hsentinel. unfold ChooseSwapExtent.
  rewrite bool_decide_eq_false_2 by (intros Hne; by apply Hne).
  unfold mbind, M_bind. simpl.
  destruct (p_windowSize pf (now w)) as [ww wh].
  eexists. split; [done|]. simpl.
  split; intros Hv [Hlh Hhi]; by apply ChooseSwapExtent_axis_negative.
Qed.

(** The calls of [QuerySwapChainSupport] are between three and five
    queries. *)
Lemma QuerySwapChainSupport_queries device surface w :
  ∃ details calls,
    QuerySwapChainSupport pf device surface w = Done details (extend w calls) ∧
    Forall (λ e, is_query e = true) calls ∧
    (3 ≤ length calls ≤ 5)%nat.
Proof.
  unfold QuerySwapChainSupport, mbind, M_bind. simpl.
  rewrite !now_emit.
  destruct (bool_decide (Z.of_nat (length (p_formats pf _)) ≠ 0)); simpl;
    rewrite ?now_emit;
    destruct (bool_decide (Z.of_nat (length (p_presentModes pf _)) ≠ 0)); simpl.
  - eexists _, [_; _; _; _; _].
    split; [unfold extend, emit; simpl; by rewrite <- !app_assoc|].
    split; [by repeat constructor|simpl; lia].
  - eexists _, [_; _; _; _].
    split; [unfold extend, emit; simpl; by rewrite <- !app_assoc|].
    split; [by repeat constructor|simpl; lia].
  - eexists _, [_; _; _; _].
    split; [unfold extend, emit; simpl; by rewrite <- !app_assoc|].
    split; [by repeat constructor|simpl; lia].
  - eexists _, [_; _; _].
    split; [unfold extend, emit; simpl; by rewrite <- !app_assoc|].
    split; [by repeat constructor|simpl; lia].
Qed.

Lemma two_call_round_trip {A} (available : list A) (default : A) :
  (two_call available
     (Some ((two_call available None).1,
            resize (Z.to_nat (two_call available None).1) default []))).2
  = available.
Proof.
  simpl. rewrite Nat2Z.id, Nat.min_id, firstn_all.
  rewrite drop_ge by (by rewrite length_resize). by rewrite app_nil_r.
Qed.

(** X5: on a surface whose format and present-mode lists do not change
    during the call, [QuerySwapChainSupport] returns exactly the platform's
    capabilities, formats and present modes, empty lists included. *)
Theorem QuerySwapChainSupport_stable device surface (w : World)
  (fs : list VkSurfaceFormatKHR) (ms : list VkPresentModeKHR) :
  (∀ t, p_formats pf t = fs) → (∀ t, p_presentModes pf t = ms) →
  ∃ w',
    QuerySwapChainSupport pf device surface w =
      Done {| capabilities := p_capabilities pf (now w);
              formats := fs; presentModes := ms |} w'.
Proof.
  intros Hfs Hms.
  pose proof (two_call_round_trip fs {| format := 0; colorSpace := 0 |}) as Hf.
  pose proof (two_call_round_trip ms 0) as Hm.
  unfold QuerySwapChainSupport, vkGetPhysicalDeviceSurfaceFormatsKHR,
    vkGetPhysicalDeviceSurfacePresentModesKHR, mbind, M_bind, mret, M_ret.
  simpl in *. rewrite !Hfs.
  destruct fs as [|f fs'].
  - simpl. rewrite !Hms. destruct ms as [|m ms'].
    + simpl. by eexists.
    + rewrite bool_decide_eq_true_2 by (simpl; lia).
      rewrite !Hms. eexists. f_equal. f_equal. exact Hm.
  - rewrite bool_decide_eq_true_2 by (simpl; lia).
    rewrite !Hfs, !Hms. destruct ms as [|m ms'].
    + simpl. eexists. f_equal. f_equal. exact Hf.
    + rewrite bool_decide_eq_true_2 by (simpl; lia).
      rewrite !Hms. eexists. f_equal. f_equal; [exact Hf|exact Hm].
Qed.

Lemma post_Fatal {A} (m : M A) w r w' (Q : A → World → Prop) F U :
  post m w Q F U → m w = Fatal r w' → F r w'.
Proof. unfold post. intros H E. by rewrite E in H. Qed.

Lemma take_S_insert {A} (l : list A) (k : nat) (x : A) :
  (k < length l)%nat → take (S k) (<[k:=x]> l) = take k l ++ [x].
Proof.
  intros Hk. rewrite (take_S_r _ _ x) by (by apply list_lookup_insert_eq).
  by rewrite take_insert_ge.
Qed.

(** [CreateImageViews], call by call: a finished run made one successful
    creation per image; a terminated run made [k] successful creations and
    then the failing one. *)
Lemma CreateImageViews_exact logicalDevice this w :
  post (CreateImageViews pf logicalDevice this) w
    (λ this' w',
       this' = set_imageViews (m_swapChainImageViews this') this ∧
       length (m_swapChainImageViews this') = length (m_swapChainImages this) ∧
       w_trace w' =
         w_trace w ++
         CreateImageViews_calls logicalDevice (m_swapChainImageFormat this)
           (m_swapChainImages this) (m_swapChainImageViews this'))
    (λ r w',
       r ≠ VK_SUCCESS ∧
       ∃ k image views h,
         m_swapChainImages this !! k = Some image ∧ length views = k ∧
         w_trace w' =
           w_trace w ++
           CreateImageViews_calls logicalDevice (m_swapChainImageFormat this)
             (take k (m_swapChainImages this)) views ++
           [Call_vkCreateImageView logicalDevice
              (imageViewCreateInfo image (m_swapChainImageFormat this)) r h])
    (λ _, False).
Proof.
  unfold CreateImageViews.
  set (n := length (m_swapChainImages this)).
  set (fmt := m_swapChainImageFormat this).
  set (this0 := set_imageViews _ this).
  pose (I := λ (rest : list nat) (s : Swapchain) (w' : World),
    s = set_imageViews (m_swapChainImageViews s) this ∧
    length (m_swapChainImageViews s) = n ∧
    ∃ k, rest = seq k (n - k) ∧ (k ≤ n)%nat ∧
      w_trace w' =
        w_trace w ++
        CreateImageViews_calls logicalDevice fmt
          (take k (m_swapChainImages this)) (take k (m_swapChainImageViews s))).
  pose (F := λ (r : VkResult) (w' : World),
    r ≠ VK_SUCCESS ∧
    ∃ k image views h,
      m_swapChainImages this !! k = Some image ∧ length views = k ∧
      w_trace w' =
        w_trace w ++
        CreateImageViews_calls logicalDevice fmt
          (take k (m_swapChainImages this)) views ++
        [Call_vkCreateImageView logicalDevice (imageViewCreateInfo image fmt) r h]).
  eapply post_mono; [apply (post_for_each _ I F (λ _, False))| | |].
  - intros i rest s w1 (Hs & Hlen & k & Hrest & Hk & Htr).
    apply seq_cons_inv in Hrest as (m' & Hm & -> & ->).
    unfold CreateImageViews_body.
    assert (Himg : m_swapChainImages s = m_swapChainImages this) by (by rewrite Hs).
    assert (Hfmt : m_swapChainImageFormat s = fmt) by (by rewrite Hs).
    destruct (lookup_lt_is_Some_2 (m_swapChainImages this) k) as [image Hik];
      [fold n; lia|].
    rewrite Himg, Hik, Hfmt.
    eapply post_bind_Done; [done|].
    destruct (vkCreateImageView_run pf logicalDevice (imageViewCreateInfo image fmt) w1)
      as (r & view & w2 & Hrun & Htr2 & _ & _).
    eapply post_bind_Done; [done|]. simpl.
    unfold post, mbind, M_bind, ErrorCheck.
    destruct (bool_decide_reflect (r = VK_SUCCESS)) as [->|Hr]; simpl.
    + unfold I. simpl.
      split; [by rewrite Hs|]. rewrite length_insert. split; [done|].
      exists (S k). split; [f_equal; lia|]. split; [lia|].
      rewrite Htr2, Htr, (take_S_r _ _ image) by done.
      rewrite take_S_insert by lia.
      unfold CreateImageViews_calls.
      rewrite zip_with_app by (rewrite !length_take_le; fold n; lia).
      by rewrite <- app_assoc.
    + split; [done|].
      exists k, image, (take k (m_swapChainImageViews s)), view.
      split; [done|]. split; [rewrite length_take_le; lia|].
      by rewrite Htr2, Htr, <- app_assoc.
  - unfold I. split; [done|].
    split; [unfold this0; simpl; by rewrite length_resize|].
    exists 0%nat. split; [by rewrite Nat.sub_0_r|]. split; [lia|].
    simpl. by rewrite app_nil_r.
  - intros s w' (Hs & Hlen & k & Hrest & Hk & Htr).
    split; [done|]. split; [done|].
    assert (k = n) as ->.
    { symmetry in Hrest. apply (f_equal length) in Hrest.
      rewrite length_seq in Hrest. simpl in Hrest. lia. }
    by rewrite !take_ge in Htr by (fold n; lia).
  - done.
  - done.
Qed.

(** [CreateFramebuffers], call by call. *)
Lemma CreateFramebuffers_exact logicalDevice renderPass this w :
  post (CreateFramebuffers pf logicalDevice renderPass this) w
    (λ this' w',
       this' = set_framebuffers (m_swapChainFramebuffers this') this ∧
       length (m_swapChainFramebuffers this') = length (m_swapChainImageViews this) ∧
       w_trace w' =
         w_trace w ++
         CreateFramebuffers_calls logicalDevice renderPass (m_swapChainExtent this)
           (m_swapChainImageViews this) (m_swapChainFramebuffers this'))
    (λ r w',
       r ≠ VK_SUCCESS ∧
       ∃ k view fbs h,
         m_swapChainImageViews this !! k = Some view ∧ length fbs = k ∧
         w_trace w' =
           w_trace w ++
           CreateFramebuffers_calls logicalDevice renderPass (m_swapChainExtent this)
             (take k (m_swapChainImageViews this)) fbs ++
           [Call_vkCreateFramebuffer logicalDevice
              (framebufferCreateInfo renderPass view (m_swapChainExtent this)) r h])
    (λ _, False).
Proof.
  unfold CreateFramebuffers.
  set (n := length (m_swapChainImageViews this)).
  set (extent := m_swapChainExtent this).
  set (this0 := set_framebuffers _ this).
  pose (I := λ (rest : list nat) (s : Swapchain) (w' : World),
    s = set_framebuffers (m_swapChainFramebuffers s) this ∧
    length (m_swapChainFramebuffers s) = n ∧
    ∃ k, rest = seq k (n - k) ∧ (k ≤ n)%nat ∧
      w_trace w' =
        w_trace w ++
        CreateFramebuffers_calls logicalDevice renderPass extent
          (take k (m_swapChainImageViews this))
          (take k (m_swapChainFramebuffers s))).
  pose (F := λ (r : VkResult) (w' : World),
    r ≠ VK_SUCCESS ∧
    ∃ k view fbs h,
      m_swapChainImageViews this !! k = Some view ∧ length fbs = k ∧
      w_trace w' =
        w_trace w ++
        CreateFramebuffers_calls logicalDevice renderPass extent
          (take k (m_swapChainImageViews this)) fbs ++
        [Call_vkCreateFramebuffer logicalDevice
           (framebufferCreateInfo renderPass view extent) r h]).
  eapply post_mono; [apply (post_for_each _ I F (λ _, False))| | |].
  - intros i rest s w1 (Hs & Hlen & k & Hrest & Hk & Htr).
    apply seq_cons_inv in Hrest as (m' & Hm & -> & ->).
    unfold CreateFramebuffers_body.
    assert (Hviews : m_swapChainImageViews s = m_swapChainImageViews this)
      by (by rewrite Hs).
    assert (Hext : m_swapChainExtent s = extent) by (by rewrite Hs).
    destruct (lookup_lt_is_Some_2 (m_swapChainImageViews this) k) as [view Hvk];
      [fold n; lia|].
    rewrite Hviews, Hvk, Hext.
    eapply post_bind_Done; [done|].
    destruct (vkCreateFramebuffer_run pf logicalDevice
                (framebufferCreateInfo renderPass view extent) w1)
      as (r & fb & w2 & Hrun & Htr2 & _ & _).
    eapply post_bind_Done; [done|]. simpl.
    unfold post, mbind, M_bind, ErrorCheck.
    destruct (bool_decide_reflect (r = VK_SUCCESS)) as [->|Hr]; simpl.
    + unfold I. simpl.
      split; [by rewrite Hs|]. rewrite length_insert. split; [done|].
      exists (S k). split; [f_equal; lia|]. split; [lia|].
      rewrite Htr2, Htr, (take_S_r _ _ view) by done.
      rewrite take_S_insert by lia.
      unfold CreateFramebuffers_calls.
      rewrite zip_with_app by (rewrite !length_take_le; fold n; lia).
      by rewrite <- app_assoc.
    + split; [done|].
      exists k, view, (take k (m_swapChainFramebuffers s)), fb.
      split; [done|]. split; [rewrite length_take_le; lia|].
      by rewrite Htr2, Htr, <- app_assoc.
  - unfold I. split; [done|].
    split; [unfold this0; simpl; by rewrite length_resize|].
    exists 0%nat. split; [by rewrite Nat.sub_0_r|]. split; [lia|].
    simpl. by rewrite app_nil_r.
  - intros s w' (Hs & Hlen & k & Hrest & Hk & Htr).
    split; [done|]. split; [done|].
    assert (k = n) as ->.
    { symmetry in Hrest. apply (f_equal length) in Hrest.
      rewrite length_seq in Hrest. simpl in Hrest. lia. }
    by rewrite !take_ge in Htr by (fold n; lia).
  - done.
  - done.
Qed.

Lemma ChooseSwapExtent_queries caps window w :
  ∃ extent calls,
    ChooseSwapExtent pf caps window w = Done extent (extend w calls) ∧
    Forall (λ e, is_query e = true) calls.
Proof.
  unfold ChooseSwapExtent. case_bool_decide.
  - exists (currentExtent caps), []. by rewrite extend_nil.
  - unfold mbind, M_bind. simpl. destruct (p_windowSize pf (now w)) as [ww wh].
    eexists _, [_]. split; [done|]. by repeat constructor.
Qed.

Lemma new_events_app w w' calls :
  w_trace w' = w_trace w ++ calls → new_events w w' = calls.
Proof. intros Htr. unfold new_events, now. by rewrite Htr, drop_app_length. Qed.

Lemma queries_created calls :
  Forall (λ e, is_query e = true) calls → created calls = [] ∧ destroyed calls = [].
Proof.
  induction 1 as [|e calls He _ [IHc IHd]]; [done|].
  unfold created, destroyed in *.
  destruct e; try discriminate He; simpl; by rewrite ?IHc, ?IHd.
Qed.

Lemma created_CreateImageViews_calls device fmt images views :
  length views = length images →
  created (CreateImageViews_calls device fmt images views) = views ∧
  destroyed (CreateImageViews_calls device fmt images views) = [].
Proof.
  revert views. induction images as [|image images IH]; intros [|view views] Hlen;
    try done.
  simpl in Hlen. destruct (IH views) as [IHc IHd]; [lia|].
  unfold created, destroyed, CreateImageViews_calls in *. simpl.
  split; [f_equal; exact IHc|exact IHd].
Qed.

Lemma created_CreateFramebuffers_calls device renderPass extent views fbs :
  length fbs = length views →
  created (CreateFramebuffers_calls device renderPass extent views fbs) = fbs ∧
  destroyed (CreateFramebuffers_calls device renderPass extent views fbs) = [].
Proof.
  revert fbs. induction views as [|view views IH]; intros [|fb fbs] Hlen; try done.
  simpl in Hlen. destruct (IH fbs) as [IHc IHd]; [lia|].
  unfold created, destroyed, CreateFramebuffers_calls in *. simpl.
  split; [f_equal; exact IHc|exact IHd].
Qed.

(** [Create], call by call, when it finishes: the queries of the support
    details and of the window size, then the chain creation with the
    selected configuration, the two image queries, and one view creation
    per image; and the object it leaves. *)
Lemma Create_exact logicalDevice physicalDevice surface window this w :
  post (Create pf logicalDevice physicalDevice surface window this) w
    (λ this' w',
       ∃ details surfaceFormat extent queries r1 r2,
         (∃ w1,
            QuerySwapChainSupport pf physicalDevice surface w = Done details w1 ∧
            ChooseSwapExtent pf (capabilities details) window w1 =
              Done extent (extend w queries)) ∧
         ChooseSwapSurfaceFormat (formats details) = Some surfaceFormat ∧
         Forall (λ e, is_query e = true) queries ∧
         this' =
           {| m_logicalDevice := logicalDevice;
              m_swapChain := m_swapChain this';
              m_swapChainImages := m_swapChainImages this';
              m_swapChainImageViews := m_swapChainImageViews this';
              m_swapChainFramebuffers := m_swapChainFramebuffers this;
              m_swapChainImageFormat := format surfaceFormat;
              m_swapChainExtent := extent |} ∧
         length (m_swapChainImageViews this') = length (m_swapChainImages this') ∧
         w_trace w' =
           w_trace w ++ queries ++
           [ Call_vkCreateSwapchainKHR logicalDevice
               (swapchainCreateInfo surface
                  (Create_imageCount (capabilities details)) surfaceFormat extent
                  (currentTransform (capabilities details))
                  (ChooseSwapPresentMode (presentModes details)))
               VK_SUCCESS (m_swapChain this');
             Call_vkGetSwapchainImagesKHR logicalDevice (m_swapChain this') None r1;
             Call_vkGetSwapchainImagesKHR logicalDevice (m_swapChain this')
               (image_request (p_nullData pf (S (S (now w + length queries))))
                  (length (m_swapChainImages this'))) r2 ] ++
           CreateImageViews_calls logicalDevice (format surfaceFormat)
             (m_swapChainImages this') (m_swapChainImageViews this'))
    (λ r w',
       r ≠ VK_SUCCESS ∧
       ∃ calls,
         w_trace w' = w_trace w ++ calls ∧ destroyed calls = [] ∧
         (created calls = [] ∨ ∃ chain views, created calls = chain :: views))
    (λ _, True).
Proof.
  unfold Create.
  destruct (QuerySwapChainSupport_queries physicalDevice surface w)
    as (details & calls1 & HQ & Hall1 & _).
  eapply post_bind_Done; [done|].
  destruct (ChooseSwapSurfaceFormat (formats details)) as [surfaceFormat|] eqn:Hsf;
    [|done].
  eapply post_bind_Done; [done|].
  destruct (ChooseSwapExtent_queries (capabilities details) window (extend w calls1))
    as (extent & calls2 & HE & Hall2).
  rewrite extend_extend in HE.
  eapply post_bind_Done; [done|].
  set (createInfo := swapchainCreateInfo _ _ _ _ _ _).
  set (w2 := extend w (calls1 ++ calls2)) in *.
  destruct (vkCreateSwapchainKHR_run pf logicalDevice createInfo w2)
    as (r & chain & w3 & HC & Htr3 & _ & _).
  eapply post_bind_Done; [done|]. simpl.
  unfold ErrorCheck at 1.
  destruct (queries_created _ Hall1) as [Hc1 Hd1].
  destruct (queries_created _ Hall2) as [Hc2 Hd2].
  destruct (bool_decide_reflect (r = VK_SUCCESS)) as [->|Hr].
  2: { unfold post, mbind, M_bind. split; [done|].
       exists ((calls1 ++ calls2) ++ [Call_vkCreateSwapchainKHR logicalDevice
                                        createInfo r chain]).
       split; [rewrite Htr3; unfold w2; simpl; by rewrite <- !app_assoc|].
       unfold created, destroyed in *. rewrite !omap_app, Hc1, Hc2, Hd1, Hd2.
       simpl. rewrite bool_decide_eq_false_2 by done. by split; [|left]. }
  eapply post_bind_Done; [done|].
  set (this3 := set_swapChain chain _).
  destruct (Create_images_run pf logicalDevice
              (Create_imageCount (capabilities details)) this3 w3)
    as (images & Hrun & _).
  eapply post_bind_Done; [exact Hrun|].
  cbv beta iota.
  set (w5 := emit _ (emit _ w3)) in *.
  assert (Hnow3 : now w3 = S (now w + length (calls1 ++ calls2))).
  { unfold now. rewrite Htr3, length_app. unfold w2. simpl.
    rewrite length_app. simpl. lia. }
  eapply post_mono; [apply CreateImageViews_exact| | |done].
  - intros this' w' (Hthis' & Hlen & Htr').
    exists details, surfaceFormat, extent, (calls1 ++ calls2),
      (p_result pf (now w3)), (p_result pf (S (now w3))).
    split; [by exists (extend w calls1)|]. split; [done|].
    split; [by apply Forall_app|].
    split; [rewrite Hthis'; by simpl|].
    split; [by rewrite Hlen, Hthis'|].
    rewrite Htr'. rewrite Hthis'. simpl.
    unfold w5. simpl. rewrite Htr3, <- Hnow3. unfold w2. simpl.
    by rewrite <- !app_assoc.
  - intros r w' (Hr & k & image & views & h & Hk & Hlen & Htr').
    split; [done|]. eexists. split.
    { rewrite Htr'. unfold w5. simpl. rewrite Htr3. unfold w2. simpl.
      rewrite <- !app_assoc. reflexivity. }
    simpl in Hk.
    assert (Hk' : (k < length images)%nat)
      by (apply lookup_lt_Some in Hk; exact Hk).
    destruct (created_CreateImageViews_calls logicalDevice
                (format surfaceFormat) (take k images) views)
      as [Hcv Hdv].
    { rewrite length_take_le; lia. }
    unfold created, destroyed in *.
    rewrite !omap_app, Hc1, Hc2, Hd1, Hd2, Hcv, Hdv. simpl.
    rewrite bool_decide_eq_false_2 by done. rewrite app_nil_r.
    split; [done|]. right. by exists chain, views.
Qed.

(** X6: when [CreateImageViews] finishes it has changed only the view
    vector, which is as long as the image vector, and the calls it made are
    exactly one successful [vkCreateImageView] per image, in index order,
    with the stored format, the 2D view type, identity swizzles and the
    color aspect, each returning the view stored at the image's index. *)
Theorem CreateImageViews_calls_exact logicalDevice (this : Swapchain) (w : World)
  (this' : Swapchain) (w' : World) :
  CreateImageViews pf logicalDevice this w = Done this' w' →
  this' = set_imageViews (m_swapChainImageViews this') this ∧
  length (m_swapChainImageViews this') = length (m_swapChainImages this) ∧
  w_trace w' =
    w_trace w ++
    CreateImageViews_calls logicalDevice (m_swapChainImageFormat this)
      (m_swapChainImages this) (m_swapChainImageViews this').
Proof.
  intros Hrun.
  exact (post_Done _ _ _ _ _ _ _ (CreateImageViews_exact logicalDevice this w) Hrun).
Qed.

(** X7: when [CreateImageViews] is terminated, it stopped at the first
    image whose view creation failed: the views of the [k] images before it
    were created and are not destroyed, and the failing creation is the last
    call made. *)
Theorem CreateImageViews_fails_fast logicalDevice (this : Swapchain) (w : World)
  (r : VkResult) (w' : World) :
  CreateImageViews pf logicalDevice this w = Fatal r w' →
  r ≠ VK_SUCCESS ∧
  ∃ k image views h,
    m_swapChainImages this !! k = Some image ∧ length views = k ∧
    w_trace w' =
      w_trace w ++
      CreateImageViews_calls logicalDevice (m_swapChainImageFormat this)
        (take k (m_swapChainImages this)) views ++
      [Call_vkCreateImageView logicalDevice
         (imageViewCreateInfo image (m_swapChainImageFormat this)) r h] ∧
    created (new_events w w') = views ∧ destroyed (new_events w w') = [].
Proof.
  intros Hrun.
  destruct (post_Fatal _ _ _ _ _ _ _ (CreateImageViews_exact logicalDevice this w) Hrun)
    as (Hr & k & image & views & h & Hk & Hlen & Htr).
  split; [done|]. exists k, image, views, h.
  split; [done|]. split; [done|]. split; [done|].
  rewrite (new_events_app _ _ _ Htr).
  destruct (created_CreateImageViews_calls logicalDevice
              (m_swapChainImageFormat this) (take k (m_swapChainImages this)) views)
    as [Hc Hd].
  { apply lookup_lt_Some in Hk. rewrite length_take_le; lia. }
  unfold created, destroyed in *. rewrite !omap_app, Hc, Hd. simpl.
  rewrite bool_decide_eq_false_2 by done. by rewrite app_nil_r.
Qed.

(** X8: when [CreateFramebuffers] finishes it has changed only the
    framebuffer vector, which is as long as the view vector, and the calls
    it made are exactly one successful [vkCreateFramebuffer] per view, in
    index order, each with the given render pass, that one view as its
    attachment list, the stored extent as width and height, and one
    layer. *)
Theorem CreateFramebuffers_calls_exact logicalDevice renderPass (this : Swapchain)
  (w : World) (this' : Swapchain) (w' : World) :
  CreateFramebuffers pf logicalDevice renderPass this w = Done this' w' →
  this' = set_framebuffers (m_swapChainFramebuffers this') this ∧
  length (m_swapChainFramebuffers this') = length (m_swapChainImageViews this) ∧
  w_trace w' =
    w_trace w ++
    CreateFramebuffers_calls logicalDevice renderPass (m_swapChainExtent this)
      (m_swapChainImageViews this) (m_swapChainFramebuffers this').
Proof.
  intros Hrun.
  exact (post_Done _ _ _ _ _ _ _
           (CreateFramebuffers_exact logicalDevice renderPass this w) Hrun).
Qed.

(** X9: when [CreateFramebuffers] is terminated, it stopped at the first
    view whose framebuffer creation failed: the [k] framebuffers before it
    were created and are not destroyed, and the failing creation is the last
    call made. *)
Theorem CreateFramebuffers_fails_fast logicalDevice renderPass (this : Swapchain)
  (w : World) (r : VkResult) (w' : World) :
  CreateFramebuffers pf logicalDevice renderPass this w = Fatal r w' →
  r ≠ VK_SUCCESS ∧
  ∃ k view fbs h,
    m_swapChainImageViews this !! k = Some view ∧ length fbs = k ∧
    w_trace w' =
      w_trace w ++
      CreateFramebuffers_calls logicalDevice renderPass (m_swapChainExtent this)
        (take k (m_swapChainImageViews this)) fbs ++
      [Call_vkCreateFramebuffer logicalDevice
         (framebufferCreateInfo renderPass view (m_swapChainExtent this)) r h] ∧
    created (new_events w w') = fbs ∧ destroyed (new_events w w') = [].
Proof.
  intros Hrun.
  destruct (post_Fatal _ _ _ _ _ _ _
              (CreateFramebuffers_exact logicalDevice renderPass this w) Hrun)
    as (Hr & k & view & fbs & h & Hk & Hlen & Htr).
  split; [done|]. exists k, view, fbs, h.
  split; [done|]. split; [done|]. split; [done|].
  rewrite (new_events_app _ _ _ Htr).
  destruct (created_CreateFramebuffers_calls logicalDevice renderPass
              (m_swapChainExtent this) (take k (m_swapChainImageViews this)) fbs)
    as [Hc Hd].
  { apply lookup_lt_Some in Hk. rewrite length_take_le; lia. }
  unfold created, destroyed in *. rewrite !omap_app, Hc, Hd. simpl.
  rewrite bool_decide_eq_false_2 by done. by rewrite app_nil_r.
Qed.

(** X10: when [Create] finishes, the calls it made are, in order: the
    queries of [QuerySwapChainSupport] and of [ChooseSwapExtent]; one
    [vkCreateSwapchainKHR] whose create-info carries the surface, the image
    count of the count rule, the format and color space
    [ChooseSwapSurfaceFormat] selected, the extent [ChooseSwapExtent]
    returned, the current transform and the mode [ChooseSwapPresentMode]
    selected; the count probe for the images and the second image query,
    which is a filling call for as many images as are stored, or a second
    count probe when none is stored and [data()] of the empty vector is
    null; and one view creation per image.  The object then holds the given device, the
    selected format and the extent that were passed to the platform, and its
    framebuffer vector is the one it had. *)
Theorem Create_calls_exact logicalDevice physicalDevice surface window
  (this : Swapchain) (w : World) (this' : Swapchain) (w' : World) :
  Create pf logicalDevice physicalDevice surface window this w = Done this' w' →
  ∃ details surfaceFormat extent queries r1 r2,
    (∃ w1,
       QuerySwapChainSupport pf physicalDevice surface w = Done details w1 ∧
       ChooseSwapExtent pf (capabilities details) window w1 =
         Done extent (extend w queries)) ∧
    ChooseSwapSurfaceFormat (formats details) = Some surfaceFormat ∧
    Forall (λ e, is_query e = true) queries ∧
    this' =
      {| m_logicalDevice := logicalDevice;
         m_swapChain := m_swapChain this';
         m_swapChainImages := m_swapChainImages this';
         m_swapChainImageViews := m_swapChainImageViews this';
         m_swapChainFramebuffers := m_swapChainFramebuffers this;
         m_swapChainImageFormat := format surfaceFormat;
         m_swapChainExtent := extent |} ∧
    length (m_swapChainImageViews this') = length (m_swapChainImages this') ∧
    w_trace w' =
      w_trace w ++ queries ++
      [ Call_vkCreateSwapchainKHR logicalDevice
          (swapchainCreateInfo surface
             (Create_imageCount (capabilities details)) surfaceFormat extent
             (currentTransform (capabilities details))
             (ChooseSwapPresentMode (presentModes details)))
          VK_SUCCESS (m_swapChain this');
        Call_vkGetSwapchainImagesKHR logicalDevice (m_swapChain this') None r1;
        Call_vkGetSwapchainImagesKHR logicalDevice (m_swapChain this')
          (image_request (p_nullData pf (S (S (now w + length queries))))
             (length (m_swapChainImages this'))) r2 ] ++
      CreateImageViews_calls logicalDevice (format surfaceFormat)
        (m_swapChainImages this') (m_swapChainImageViews this').
Proof.
  intros Hrun.
  exact (post_Done _ _ _ _ _ _ _
           (Create_exact logicalDevice physicalDevice surface window this w) Hrun).
Qed.

(** What one finished building step creates, and that it destroys
    nothing. *)
Lemma Create_handles logicalDevice physicalDevice surface window this w this' w' :
  Create pf logicalDevice physicalDevice surface window this w = Done this' w' →
  ∃ calls,
    w_trace w' = w_trace w ++ calls ∧
    created calls = m_swapChain this' :: m_swapChainImageViews this' ∧
    destroyed calls = [].
Proof.
  intros Hrun.
  destruct (post_Done _ _ _ _ _ _ _
              (Create_exact logicalDevice physicalDevice surface window this w) Hrun)
    as (details & sf & extent & queries & r1 & r2 & _ & _ & Hq & _ & Hlen & Htr).
  eexists. split; [exact Htr|].
  destruct (queries_created _ Hq) as [Hqc Hqd].
  destruct (created_CreateImageViews_calls logicalDevice (format sf)
              (m_swapChainImages this') (m_swapChainImageViews this') Hlen)
    as [Hvc Hvd].
  unfold created, destroyed in *. by rewrite !omap_app, Hqc, Hqd, Hvc, Hvd.
Qed.

Lemma CreateFramebuffers_handles logicalDevice renderPass this w this' w' :
  CreateFramebuffers pf logicalDevice renderPass this w = Done this' w' →
  ∃ calls,
    w_trace w' = w_trace w ++ calls ∧
    created calls = m_swapChainFramebuffers this' ∧
    destroyed calls = [].
Proof.
  intros Hrun.
  destruct (post_Done _ _ _ _ _ _ _
              (CreateFramebuffers_exact logicalDevice renderPass this w) Hrun)
    as (_ & Hlen & Htr).
  eexists. split; [exact Htr|].
  by apply created_CreateFramebuffers_calls.
Qed.

(** X11: [Create] and [CreateFramebuffers] never destroy anything: whatever
    the object held before, and in whatever order and number they are
    called, a finished history contains no [vkDestroyImageView],
    [vkDestroyFramebuffer] or [vkDestroySwapchainKHR] call, so the handles a
    call replaces are left alive. *)
Theorem run_never_destroys (ops : list Op) (this : Swapchain) (w : World)
  (this' : Swapchain) (w' : World) :
  run pf ops this w = Done this' w' →
  ∃ calls, w_trace w' = w_trace w ++ calls ∧ destroyed calls = [].
Proof.
  revert this w. induction ops as [|op ops IH]; intros this w Hrun; simpl in Hrun.
  - injection Hrun as <- <-. exists []. by rewrite app_nil_r.
  - unfold mbind, M_bind in Hrun.
    destruct (step pf op this w) as [this1 w1| |] eqn:Hstep; [|done..].
    assert (Hone : ∃ calls, w_trace w1 = w_trace w ++ calls ∧ destroyed calls = []).
    { destruct op as [d p s win|d rp]; simpl in Hstep.
      - destruct (Create_handles _ _ _ _ _ _ _ _ Hstep) as (calls & Htr & _ & Hd).
        by exists calls.
      - destruct (CreateFramebuffers_handles _ _ _ _ _ _ Hstep)
          as (calls & Htr & _ & Hd).
        by exists calls. }
    destruct Hone as (calls1 & Htr1 & Hd1).
    destruct (IH this1 w1 Hrun) as (calls2 & Htr2 & Hd2).
    exists (calls1 ++ calls2). split; [by rewrite Htr2, Htr1, app_assoc|].
    unfold destroyed in *. by rewrite omap_app, Hd1, Hd2.
Qed.

Lemma destroyed_imap_framebuffers (device : nat → VkDevice) (fbs : list VkFramebuffer) :
  destroyed (imap (λ i fb, Call_vkDestroyFramebuffer (device i) fb) fbs) = fbs ∧
  created (imap (λ i fb, Call_vkDestroyFramebuffer (device i) fb) fbs) = [].
Proof.
  revert device. induction fbs as [|fb fbs IH]; intros device; [done|].
  destruct (IH (device ∘ S)) as [IHd IHc].
  unfold destroyed, created in *. simpl. split; [f_equal; exact IHd|exact IHc].
Qed.

Lemma destroyed_imap_views (device : nat → VkDevice) (views : list VkImageView) :
  destroyed (imap (λ i v, Call_vkDestroyImageView (device i) v) views) = views ∧
  created (imap (λ i v, Call_vkDestroyImageView (device i) v) views) = [].
Proof.
  revert device. induction views as [|v views IH]; intros device; [done|].
  destruct (IH (device ∘ S)) as [IHd IHc].
  unfold destroyed, created in *. simpl. split; [f_equal; exact IHd|exact IHc].
Qed.

Lemma destroyed_CleanupFrameBuffers_calls t fbs :
  destroyed (CleanupFrameBuffers_calls pf t fbs) = fbs ∧
  created (CleanupFrameBuffers_calls pf t fbs) = [].
Proof.
  unfold CleanupFrameBuffers_calls.
  destruct (destroyed_imap_framebuffers (λ i, p_display pf (S t + i)) fbs)
    as [Hd Hc].
  unfold destroyed, created in *. simpl. by split.
Qed.

Lemma destroyed_Cleanup_calls t views chain :
  destroyed (Cleanup_calls pf t views chain) = views ++ [chain] ∧
  created (Cleanup_calls pf t views chain) = [].
Proof.
  unfold Cleanup_calls.
  destruct (destroyed_imap_views (λ i, p_display pf (S t + i)) views) as [Hd Hc].
  unfold destroyed, created in *. simpl. rewrite !omap_app. simpl.
  split; [by f_equal|]. rewrite app_nil_r. exact Hc.
Qed.

(** X12: the teardown functions leave the vectors and the chain handle in
    the object, so tearing down again destroys the same handles again: after
    an explicit [CleanupFrameBuffers] and [Cleanup], the destructor destroys
    every framebuffer, every view and the chain a second time. *)
Theorem teardown_twice (this : Swapchain) (w : World) :
  ∃ calls,
    (this1 ← CleanupFrameBuffers pf this;
     this2 ← Cleanup pf this1;
     Swapchain_destructor pf this2) w = Done this (extend w calls) ∧
    destroyed calls =
      (m_swapChainFramebuffers this ++ m_swapChainImageViews this ++
       [m_swapChain this]) ++
      (m_swapChainFramebuffers this ++ m_swapChainImageViews this ++
       [m_swapChain this]).
Proof.
  unfold mbind, M_bind.
  rewrite CleanupFrameBuffers_run, Cleanup_run, Swapchain_destructor_run.
  rewrite !extend_extend. eexists. split; [done|].
  unfold destroyed. rewrite !omap_app.
  pose proof (destroyed_CleanupFrameBuffers_calls) as Hf.
  pose proof (destroyed_Cleanup_calls) as Hc.
  unfold destroyed in Hf, Hc.
  rewrite !(λ t fbs, proj1 (Hf t fbs)), !(λ t v c, proj1 (Hc t v c)).
  by rewrite <- !app_assoc.
Qed.

(** X13: one full life of the object.  When [Create] and then
    [CreateFramebuffers] finish, the destructor that follows finishes too,
    and over the whole life the handles created are the chain, the views and
    the framebuffers of the object, and the handles destroyed are the
    framebuffers, then the views, then the chain: every handle created is
    destroyed exactly once. *)
Theorem lifecycle_balanced logicalDevice physicalDevice surface window renderPass
  (this : Swapchain) (w : World) (this1 : Swapchain) (w1 : World)
  (this2 : Swapchain) (w2 : World) :
  Create pf logicalDevice physicalDevice surface window this w = Done this1 w1 →
  CreateFramebuffers pf logicalDevice renderPass this1 w1 = Done this2 w2 →
  ∃ w3,
    Swapchain_destructor pf this2 w2 = Done this2 w3 ∧
    created (new_events w w3) =
      m_swapChain this2 :: m_swapChainImageViews this2 ++
      m_swapChainFramebuffers this2 ∧
    destroyed (new_events w w3) =
      m_swapChainFramebuffers this2 ++ m_swapChainImageViews this2 ++
      [m_swapChain this2] ∧
    created (new_events w w3) ≡ₚ destroyed (new_events w w3).
Proof.
  intros Hcreate Hfbs.
  destruct (Create_handles _ _ _ _ _ _ _ _ Hcreate) as (c1 & Htr1 & Hc1 & Hd1).
  destruct (CreateFramebuffers_handles _ _ _ _ _ _ Hfbs) as (c2 & Htr2 & Hc2 & Hd2).
  destruct (post_Done _ _ _ _ _ _ _
              (CreateFramebuffers_exact logicalDevice renderPass this1 w1) Hfbs)
    as (Hthis2 & _ & _).
  assert (Hchain : m_swapChain this2 = m_swapChain this1) by (by rewrite Hthis2).
  assert (Hviews : m_swapChainImageViews this2 = m_swapChainImageViews this1)
    by (by rewrite Hthis2).
  eexists. split; [apply Swapchain_destructor_run|].
  set (c3 := _ ++ _).
  assert (Hnew : new_events w (extend w2 c3) = c1 ++ c2 ++ c3).
  { apply new_events_app. simpl. by rewrite Htr2, Htr1, <- !app_assoc. }
  destruct (destroyed_CleanupFrameBuffers_calls (now w2) (m_swapChainFramebuffers this2))
    as [Hd3 Hc3].
  destruct (destroyed_Cleanup_calls
              (S (now w2 + length (m_swapChainFramebuffers this2)))
              (m_swapChainImageViews this2) (m_swapChain this2)) as [Hd4 Hc4].
  assert (Hcr : created (c1 ++ c2 ++ c3) =
                m_swapChain this2 :: m_swapChainImageViews this2 ++
                m_swapChainFramebuffers this2).
  { unfold c3, created in *. rewrite !omap_app, Hc1, Hc2, Hc3, Hc4.
    rewrite Hchain, Hviews. simpl. by rewrite !app_nil_r. }
  assert (Hde : destroyed (c1 ++ c2 ++ c3) =
                m_swapChainFramebuffers this2 ++ m_swapChainImageViews this2 ++
                [m_swapChain this2]).
  { unfold c3, destroyed in *. by rewrite !omap_app, Hd1, Hd2, Hd3, Hd4. }
  rewrite Hnew, Hcr, Hde. split; [done|]. split; [done|].
  rewrite (Permutation_app_comm (m_swapChainFramebuffers this2)).
  rewrite <- app_assoc. simpl. apply Permutation_middle.
Qed.

(** X14: an object whose framebuffer and view vectors are empty (a freshly
    constructed one among them) is still torn down in full by the
    destructor: it waits for the device twice and calls
    [vkDestroySwapchainKHR] on the stored chain handle, which is
    [VK_NULL_HANDLE] for a fresh object. *)
Theorem destructor_without_resources (this : Swapchain) (w : World) :
  m_swapChainFramebuffers this = [] → m_swapChainImageViews this = [] →
  Swapchain_destructor pf this w =
    Done this
      (extend w
         [ Call_vkDeviceWaitIdle (p_display pf (now w)) (p_result pf (now w));
           Call_vkDeviceWaitIdle (p_display pf (S (now w))) (p_result pf (S (now w)));
           Call_vkDestroySwapchainKHR (p_display pf (S (S (now w))))
             (m_swapChain this) ]).
Proof.
  intros Hfbs Hviews. rewrite Swapchain_destructor_run, Hfbs, Hviews.
  unfold CleanupFrameBuffers_calls, Cleanup_calls. simpl.
  by rewrite !Nat.add_0_r.
Qed.


Lemma two_call_fill_shape {A} (available : list A) (n : nat) (default : A) :
  (two_call available
     (Some (Z.of_nat n, resize (Z.to_nat (Z.of_nat n)) default []))).2
  = take n available ++ replicate (n - length available) default.
Proof.
  simpl. rewrite Nat2Z.id, resize_nil, drop_replicate.
  destruct (Nat.min_spec n (length available)) as [[Hlt ->]|[Hge ->]].
  - by replace (n - n)%nat with (n - length available)%nat by lia.
  - rewrite firstn_all, (take_ge available n) by lia. done.
Qed.

(** X16: the format vector [QuerySwapChainSupport] returns always has the
    size the count probe reported.  It holds the formats the filling call
    reported, cut to that size, and, when the filling call reported fewer,
    zero-initialised entries (undefined format) behind them. *)
Theorem QuerySwapChainSupport_keeps_probed_size device surface (w : World) :
  ∃ details w',
    QuerySwapChainSupport pf device surface w = Done details w' ∧
    formats details =
      take (length (p_formats pf (S (now w)))) (p_formats pf (S (S (now w)))) ++
      replicate (length (p_formats pf (S (now w))) -
                 length (p_formats pf (S (S (now w)))))
                {| format := VK_FORMAT_UNDEFINED; colorSpace := 0 |} ∧
    length (formats details) = length (p_formats pf (S (now w))).
Proof.
  pose proof (two_call_fill_shape (p_formats pf (S (S (now w))))
                (length (p_formats pf (S (now w))))
                {| format := 0; colorSpace := 0 |}) as Hshape.
  unfold QuerySwapChainSupport, vkGetPhysicalDeviceSurfaceFormatsKHR, mbind, M_bind.
  simpl in *. rewrite !now_emit.
  destruct (bool_decide_reflect
              (Z.of_nat (length (p_formats pf (S (now w)))) ≠ 0)) as [Hn|Hn]; simpl.
  - rewrite !now_emit.
    destruct (bool_decide (Z.of_nat (length (p_presentModes pf _)) ≠ 0)); simpl;
      eexists _, _; (split; [reflexivity|]); simpl;
      (split; [exact Hshape|]);
      rewrite length_app, length_take, length_drop, length_resize; lia.
  - assert (Hnil : length (p_formats pf (S (now w))) = 0%nat) by lia.
    rewrite Hnil.
    destruct (bool_decide (Z.of_nat (length (p_presentModes pf _)) ≠ 0)); simpl;
      by eexists _, _.
Qed.

End Builders.

(** ** Concrete runs of the builders and the teardown *)

Lemma ChooseSwapExtent_within_witness :
  ∃ extent,
    ChooseSwapExtent inverted (p_capabilities inverted 0) 10%N world0 =
      Done extent (emit (Call_glfwGetWindowSize 10%N) world0) ∧
    1 ≤ width extent ≤ 4096 ∧ 1 ≤ height extent ≤ 4096.
Proof.
  apply (ChooseSwapExtent_within inverted (p_capabilities inverted 0) 10%N world0);
    simpl; (reflexivity || lia).
Defined.

Lemma ChooseSwapExtent_negative_window_witness :
  ∃ extent,
    ChooseSwapExtent inverted (p_capabilities inverted 0) 10%N world0 =
      Done extent (emit (Call_glfwGetWindowSize 10%N) world0) ∧
    width extent = 4096 ∧ height extent = 4096.
Proof.
  destruct (ChooseSwapExtent_negative_window inverted (p_capabilities inverted 0)
              10%N world0 eq_refl) as (extent & Hrun & Hwidth & Hheight).
  exists extent. split; [exact Hrun|]. split.
  - apply Hwidth; simpl; unfold INT_MIN, INT_MAX; lia.
  - apply Hheight; simpl; unfold INT_MIN, INT_MAX; lia.
Defined.

Lemma QuerySwapChainSupport_stable_witness :
  ∃ w',
    QuerySwapChainSupport desktop 8%N 9%N world0 =
      Done {| capabilities := p_capabilities desktop 0;
              formats := [preferredFormat];
              presentModes := [VK_PRESENT_MODE_FIFO_KHR; VK_PRESENT_MODE_MAILBOX_KHR] |}
           w'.
Proof.
  apply (QuerySwapChainSupport_stable desktop 8%N 9%N world0); intros t; reflexivity.
Defined.

(** The filling call reports one format where the probe counted two: the
    second entry of the result is the zero-initialised one. *)
Example QuerySwapChainSupport_after_shrinking :
  ∃ details w',
    QuerySwapChainSupport shrinking 8%N 9%N world0 = Done details w' ∧
    formats details =
      [preferredFormat; {| format := VK_FORMAT_UNDEFINED; colorSpace := 0 |}].
Proof. eexists _, _. split; [vm_compute; reflexivity|]. done. Qed.

Lemma CreateImageViews_calls_exact_witness :
  ∃ this' w',
    CreateImageViews desktop 7%N built world0 = Done this' w' ∧
    m_swapChainImageViews this' = [1; 2; 3]%N ∧
    w_trace w' =
      w_trace world0 ++
      CreateImageViews_calls 7%N VK_FORMAT_B8G8R8A8_UNORM [2; 3; 4]%N [1; 2; 3]%N.
Proof.
  eexists _, _. split; [vm_compute; reflexivity|]. split; [reflexivity|].
  destruct (CreateImageViews_calls_exact desktop 7%N built world0 _ _
              ltac:(vm_compute; reflexivity)) as (_ & _ & Htr).
  exact Htr.
Defined.

Lemma CreateImageViews_fails_fast_witness :
  ∃ w',
    CreateImageViews (answering 1 VK_ERROR_DEVICE_LOST) 7%N built world0
      = Fatal VK_ERROR_DEVICE_LOST w' ∧
    created (new_events world0 w') = [1%N] ∧
    destroyed (new_events world0 w') = [].
Proof.
  eexists. split; [vm_compute; reflexivity|].
  destruct (CreateImageViews_fails_fast (answering 1 VK_ERROR_DEVICE_LOST) 7%N built
              world0 VK_ERROR_DEVICE_LOST _ ltac:(vm_compute; reflexivity))
    as (_ & k & image & views & h & _ & _ & _ & _ & Hd).
  split; [reflexivity|exact Hd].
Defined.

Lemma CreateFramebuffers_calls_exact_witness :
  ∃ this' w',
    CreateFramebuffers desktop 7%N 11%N built world0 = Done this' w' ∧
    m_swapChainFramebuffers this' = [1; 2; 3]%N ∧
    w_trace w' =
      w_trace world0 ++
      CreateFramebuffers_calls 7%N 11%N {| width := 1920; height := 1080 |}
        [5; 6; 7]%N [1; 2; 3]%N.
Proof.
  eexists _, _. split; [vm_compute; reflexivity|]. split; [reflexivity|].
  destruct (CreateFramebuffers_calls_exact desktop 7%N 11%N built world0 _ _
              ltac:(vm_compute; reflexivity)) as (_ & _ & Htr).
  exact Htr.
Defined.

Lemma CreateFramebuffers_fails_fast_witness :
  ∃ w',
    CreateFramebuffers (answering 2 VK_ERROR_DEVICE_LOST) 7%N 11%N built world0
      = Fatal VK_ERROR_DEVICE_LOST w' ∧
    created (new_events world0 w') = [1; 2]%N ∧
    destroyed (new_events world0 w') = [].
Proof.
  eexists. split; [vm_compute; reflexivity|].
  destruct (CreateFramebuffers_fails_fast (answering 2 VK_ERROR_DEVICE_LOST) 7%N 11%N
              built world0 VK_ERROR_DEVICE_LOST _ ltac:(vm_compute; reflexivity))
    as (_ & k & view & fbs & h & _ & _ & _ & _ & Hd).
  split; [reflexivity|exact Hd].
Defined.

Lemma Create_calls_exact_witness :
  ∃ this' w',
    Create desktop 7%N 8%N 9%N 10%N Swapchain_new world0 = Done this' w' ∧
    ∃ details surfaceFormat extent,
      ChooseSwapSurfaceFormat (formats details) = Some surfaceFormat ∧
      m_swapChainImageFormat this' = format surfaceFormat ∧
      m_swapChainExtent this' = extent ∧
      m_logicalDevice this' = 7%N.
Proof.
  eexists _, _. split; [vm_compute; reflexivity|].
  destruct (Create_calls_exact desktop 7%N 8%N 9%N 10%N Swapchain_new world0 _ _
              ltac:(vm_compute; reflexivity))
    as (details & sf & extent & queries & r1 & r2 & _ & Hsf & _ & Hthis & _).
  exists details, sf, extent. split; [exact Hsf|].
  split; [exact (f_equal m_swapChainImageFormat Hthis)|].
  split; [exact (f_equal m_swapChainExtent Hthis)|reflexivity].
Defined.

Lemma run_never_destroys_witness :
  ∃ this' w' calls,
    run desktop [OpCreate 7 8 9 10; OpCreateFramebuffers 7 11; OpCreate 7 8 9 10]%N
        Swapchain_new world0 = Done this' w' ∧
    w_trace w' = w_trace world0 ++ calls ∧ destroyed calls = [].
Proof.
  destruct (run_never_destroys desktop
              [OpCreate 7 8 9 10; OpCreateFramebuffers 7 11; OpCreate 7 8 9 10]%N
              Swapchain_new world0 _ _ ltac:(vm_compute; reflexivity))
    as (calls & Htr & Hd).
  eexists _, _, calls. split; [vm_compute; reflexivity|].
  split; [exact Htr|exact Hd].
Defined.

Lemma lifecycle_balanced_witness :
  ∃ this1 w1 this2 w2 w3,
    Create desktop 7%N 8%N 9%N 10%N Swapchain_new world0 = Done this1 w1 ∧
    CreateFramebuffers desktop 7%N 11%N this1 w1 = Done this2 w2 ∧
    Swapchain_destructor desktop this2 w2 = Done this2 w3 ∧
    created (new_events world0 w3) ≡ₚ destroyed (new_events world0 w3).
Proof.
  destruct (lifecycle_balanced desktop 7%N 8%N 9%N 10%N 11%N Swapchain_new world0
              _ _ _ _ ltac:(vm_compute; reflexivity) ltac:(vm_compute; reflexivity))
    as (w3 & Hrun & _ & _ & Hperm).
  eexists _, _, _, _, w3. split; [vm_compute; reflexivity|].
  split; [vm_compute; reflexivity|].
  split; [exact Hrun|exact Hperm].
Defined.

Lemma destructor_without_resources_witness :
  Swapchain_destructor desktop Swapchain_new world0 =
    Done Swapchain_new
      (extend world0
         [ Call_vkDeviceWaitIdle 7%N VK_SUCCESS;
           Call_vkDeviceWaitIdle 7%N VK_SUCCESS;
           Call_vkDestroySwapchainKHR 7%N VK_NULL_HANDLE ]).
Proof.
  apply (destructor_without_resources desktop Swapchain_new world0); reflexivity.
Defined.

